(** * NADA harvester for DDI (ckanext/ddi/harvesters/ddiharvester.py)

    A shallow embedding of [NadaHarvester]: the endpoint builders, the
    paginated gather stage, the reclassification of unrecognised
    attributes into [extras] and the field policies of the import stage.

    Python values are an inductive type, a [dict] is an association list
    in iteration order, taken to be the order of insertion (keys unique,
    a key that is assigned again keeps its place, a new key goes last),
    exceptions are an error type, and
    the harvest-object store that the gather stage writes to is threaded
    explicitly so that what was saved before an exception stays saved.
    Values are trees: two names for one mutable list are not modelled,
    and neither are floats nor the byte/unicode split of Python 2. *)

From Stdlib Require Import String Ascii List ZArith Lia Bool DecimalString.
From Stdlib Require DecimalPos DecimalZ.
Import ListNotations.
Open Scope list_scope.
Open Scope string_scope.
Set Warnings "-register-all".

(** ** Python values, exceptions *)

Inductive value : Type :=
| VNone
| VBool (b : bool)
| VInt (z : Z)
| VStr (s : string)
| VList (l : list value)
| VTuple (l : list value)
| VDict (d : list (string * value)).

Definition dict := list (string * value).

Inductive exn : Type :=
| KeyError (key : value)
| TypeError
| AttributeError
| ValueError
| AccessTypeNotAvailableError (access_type : value)
| RequestException (cause : string)
| JSONDecodeError (cause : string)
| ParseError (cause : string).

Inductive result (A : Type) : Type :=
| Ok (a : A)
| Raise (e : exn).
Arguments Ok {A} a.
Arguments Raise {A} e.

Definition bind {A B} (m : result A) (k : A -> result B) : result B :=
  match m with
  | Ok a => k a
  | Raise e => Raise e
  end.

Declare Scope py_scope.
Delimit Scope py_scope with py.
Notation "x <- m ;; k" := (bind m (fun x => k))
  (at level 61, m at next level, right associativity) : py_scope.
Open Scope py_scope.

(** ** Dictionaries *)

Fixpoint dict_get (k : string) (d : dict) : option value :=
  match d with
  | [] => None
  | (k', v) :: r => if String.eqb k k' then Some v else dict_get k r
  end.

Definition dict_mem (k : string) (d : dict) : bool :=
  match dict_get k d with Some _ => true | None => false end.

(** [d[k] = v] *)
Fixpoint dict_set (k : string) (v : value) (d : dict) : dict :=
  match d with
  | [] => [(k, v)]
  | (k', v') :: r =>
      if String.eqb k k' then (k', v) :: r else (k', v') :: dict_set k v r
  end.

(** [del d[k]] *)
Fixpoint dict_del (k : string) (d : dict) : dict :=
  match d with
  | [] => []
  | (k', v') :: r => if String.eqb k k' then r else (k', v') :: dict_del k r
  end.

Definition dict_keys (d : dict) : list string := map fst d.

(** [d[k]], raising [KeyError] *)
Definition getitem (d : dict) (k : string) : result value :=
  match dict_get k d with
  | Some v => Ok v
  | None => Raise (KeyError (VStr k))
  end.

(** [d.get(k, default)] *)
Definition dict_get_default (d : dict) (k : string) (default : value) : value :=
  match dict_get k d with
  | Some v => v
  | None => default
  end.

(** Keys of a dict are unique. *)
Definition wf_dict (d : dict) : Prop := NoDup (dict_keys d).

Definition mem_string (k : string) (l : list string) : bool :=
  existsb (String.eqb k) l.

(** [v[k]] for a string subscript [k] on an arbitrary value. *)
Definition subscript (v : value) (k : string) : result value :=
  match v with
  | VDict d => getitem d k
  | _ => Raise TypeError
  end.

(** [k in v] for a string [k]: a key of a dict, an element of a list or
    tuple, a substring of a string. *)
Definition contains (v : value) (k : string) : result bool :=
  match v with
  | VDict d => Ok (dict_mem k d)
  | VList l | VTuple l =>
      Ok (existsb (fun x => match x with
                            | VStr s => String.eqb k s
                            | _ => false
                            end) l)
  | VStr s => Ok (match String.index 0 k s with Some _ => true | None => false end)
  | VNone | VBool _ | VInt _ => Raise TypeError
  end.

(** [v[k] = x] for a string [k]: only a dict takes it. *)
Definition setitem (v : value) (k : string) (x : value) : result value :=
  match v with
  | VDict d => Ok (VDict (dict_set k x d))
  | _ => Raise TypeError
  end.

(** [for x in v] *)
Definition iterate (v : value) : result (list value) :=
  match v with
  | VList l | VTuple l => Ok l
  | VStr s => Ok (map (fun c => VStr (String c EmptyString)) (list_ascii_of_string s))
  | VDict d => Ok (map VStr (dict_keys d))
  | VNone | VBool _ | VInt _ => Raise TypeError
  end.

Fixpoint hashable (v : value) : bool :=
  match v with
  | VList _ | VDict _ => false
  | VTuple l => forallb hashable l
  | _ => true
  end.

(** ** Strings *)

Definition string_of_Z (z : Z) : string := NilZero.string_of_int (Z.to_int z).

Fixpoint string_take (n : nat) (s : string) : string :=
  match n, s with
  | S n', String c r => String c (string_take n' r)
  | _, _ => EmptyString
  end.

(** [s.rstrip('/')] *)
Fixpoint rstrip_slash (s : string) : string :=
  match s with
  | EmptyString => EmptyString
  | String c r =>
      match rstrip_slash r with
      | EmptyString => if Ascii.eqb c "/" then EmptyString else String c EmptyString
      | r' => String c r'
      end
  end.

Definition is_space (c : ascii) : bool :=
  let n := nat_of_ascii c in
  (n =? 32)%nat || ((9 <=? n)%nat && (n <=? 13)%nat).

Fixpoint lstrip (s : string) : string :=
  match s with
  | String c r => if is_space c then lstrip r else s
  | EmptyString => EmptyString
  end.

Fixpoint rstrip (s : string) : string :=
  match s with
  | EmptyString => EmptyString
  | String c r =>
      match rstrip r with
      | EmptyString => if is_space c then EmptyString else String c EmptyString
      | r' => String c r'
      end
  end.

Definition is_digit (c : ascii) : bool :=
  let n := nat_of_ascii c in (48 <=? n)%nat && (n <=? 57)%nat.

Definition all_digits (s : string) : bool :=
  forallb is_digit (list_ascii_of_string s).

Definition digits_to_Z (s : string) : result Z :=
  match s with
  | EmptyString => Raise ValueError
  | _ =>
      if all_digits s then
        match NilEmpty.uint_of_string s with
        | Some u => Ok (Z.of_uint u)
        | None => Raise ValueError
        end
      else Raise ValueError
  end.

(** [int(v)]: integers, booleans and decimal strings with an optional
    sign and surrounding white space convert; other strings raise
    [ValueError], other values [TypeError]. *)
Definition int (v : value) : result Z :=
  match v with
  | VInt z => Ok z
  | VBool b => Ok (if b then 1 else 0)%Z
  | VStr s =>
      match rstrip (lstrip s) with
      | String "-" r => z <- digits_to_Z r ;; Ok (- z)%Z
      | String "+" r => digits_to_Z r
      | r => digits_to_Z r
      end
  | _ => Raise TypeError
  end.

(** [v[:n]] *)
Definition slice_to (n : nat) (v : value) : result value :=
  match v with
  | VStr s => Ok (VStr (string_take n s))
  | VList l => Ok (VList (firstn n l))
  | VTuple l => Ok (VTuple (firstn n l))
  | _ => Raise TypeError
  end.

Section Formatting.

(** [repr] of the values whose [str] is their [repr]: lists, tuples
    and dicts. Its text plays no part in what follows. *)
Variable repr : value -> string.

Definition str (v : value) : string :=
  match v with
  | VStr s => s
  | VInt z => string_of_Z z
  | VBool true => "True"
  | VBool false => "False"
  | VNone => "None"
  | _ => repr v
  end.

(** [pre + '%s' % arg]: a tuple argument is unpacked and must have
    exactly one element. *)
Definition format_s (pre : string) (arg : value) : result string :=
  match arg with
  | VTuple [x] => Ok (pre ++ str x)
  | VTuple _ => Raise TypeError
  | _ => Ok (pre ++ str arg)
  end.

End Formatting.

(** ** NadaHarvester: constants and endpoint builders *)

Definition HARVEST_USER : string := "harvest".

Definition ACCESS_TYPES : dict :=
  [ ("", VStr "");
    ("direct_access", VInt 1);
    ("public_use", VInt 2);
    ("licensed", VInt 3);
    ("data_enclave", VInt 4);
    ("data_external", VInt 5);
    ("no_data_available", VInt 6);
    ("open_data", VInt 7) ].

Definition DEFAULT_ATTRIBUTES : list string :=
  [ "id"; "name"; "title"; "url"; "author"; "author_email"; "maintainer";
    "maintainer_email"; "license_id"; "version"; "notes"; "tags"; "extras" ].

(** [self.ACCESS_TYPES[access_type]] for an arbitrary key: an
    unhashable key raises [TypeError], a key that is not there
    [KeyError]. *)
Definition access_code (access_type : value) : result value :=
  if hashable access_type then
    match access_type with
    | VStr s => getitem ACCESS_TYPES s
    | _ => Raise (KeyError access_type)
    end
  else Raise TypeError.

(** The code of an access type as [%s] prints it. *)
Definition code_text (c : value) : string :=
  match c with
  | VInt z => string_of_Z z
  | VStr s => s
  | _ => ""
  end.

(** [access_type] is [VNone] for Python's [None]. *)
Definition _get_search_api (access_type : value) (page : Z) : result string :=
  match access_type with
  | VNone =>
      Ok ("/index.php/api/v2/catalog/search/format/json?page=" ++ string_of_Z page)
  | _ =>
      match access_code access_type with
      | Ok c =>
          Ok ("/index.php/api/v2/catalog/search/format/json/" ++
              "?dtype[]=" ++ code_text c ++ "&page=" ++ string_of_Z page)
      | Raise (KeyError _) => Raise (AccessTypeNotAvailableError access_type)
      | Raise e => Raise e
      end
  end.

Definition _get_ddi_api (ddi_id : string) : string :=
  "/index.php/catalog/ddi/" ++ ddi_id.

Definition _get_catalog_path (ddi_id : string) : string :=
  "/index.php/catalog/" ++ ddi_id.

(** Lines 126-135 of [gather_stage]: the search URL for the configured
    access type, rebuilt for [public_use] when the access type is not
    available or the configuration has none. *)
Definition search_url (config : value) (base_url : string) (page : Z)
  : result string :=
  match (access_type <- subscript config "access_type" ;;
         _get_search_api access_type page) with
  | Ok path => Ok (base_url ++ path)
  | Raise (AccessTypeNotAvailableError _) | Raise (KeyError _) =>
      path <- _get_search_api (VStr "public_use") page ;;
      Ok (base_url ++ path)
  | Raise e => Raise e
  end.

(** ** Gather stage

    What one run of [gather_stage] reads and writes: the harvest-object
    table and the gather errors of the job (both outlive an exception),
    the URLs handed to [requests.get] in order, and the locals
    [api_url], [page] and [harvest_obj_ids]. *)

Record HarvestObject : Type := { ho_id : nat; ho_guid : value }.

(** [_save_gather_error('Unable to get content for URL: %s: %s / %s'
    % (api_url, str(e), traceback.format_exc()), harvest_job)]: the URL
    in hand ([None] before the first one was built) and the exception. *)
Record GatherError : Type := { ge_url : option string; ge_cause : exn }.

Record gather_state : Type := {
  objects : list HarvestObject;
  gather_errors : list GatherError;
  requested : list string;
  api_url : option string;
  page : Z;
  harvest_obj_ids : list nat }.

(** State that survives an exception. *)
Definition M (A : Type) : Type := gather_state -> result A * gather_state.

Definition ret {A} (a : A) : M A := fun s => (Ok a, s).

Definition mbind {A B} (m : M A) (k : A -> M B) : M B :=
  fun s =>
    match m s with
    | (Ok a, s') => k a s'
    | (Raise e, s') => (Raise e, s')
    end.

Definition lift {A} (r : result A) : M A := fun s => (r, s).

Definition modify (f : gather_state -> gather_state) : M unit :=
  fun s => (Ok tt, f s).

Notation "x <~ m ;; k" := (mbind m (fun x => k))
  (at level 61, m at next level, right associativity) : py_scope.
Notation "m ;;; k" := (mbind m (fun _ => k))
  (at level 61, right associativity) : py_scope.

Definition set_api_url (u : string) (s : gather_state) : gather_state :=
  {| objects := objects s; gather_errors := gather_errors s;
     requested := requested s; api_url := Some u; page := page s;
     harvest_obj_ids := harvest_obj_ids s |}.

Definition log_request (u : string) (s : gather_state) : gather_state :=
  {| objects := objects s; gather_errors := gather_errors s;
     requested := (requested s ++ [u])%list; api_url := api_url s;
     page := page s; harvest_obj_ids := harvest_obj_ids s |}.

Definition next_page (s : gather_state) : gather_state :=
  {| objects := objects s; gather_errors := gather_errors s;
     requested := requested s; api_url := api_url s; page := (page s + 1)%Z;
     harvest_obj_ids := harvest_obj_ids s |}.

(** [harvest_obj = HarvestObject(guid=guid, job=harvest_job);
    harvest_obj.save(); harvest_obj_ids.append(harvest_obj.id)]: the
    table gives the new row the next free id. *)
Definition save_object (guid : value) (s : gather_state) : gather_state :=
  let id := length (objects s) in
  {| objects := (objects s ++ [{| ho_id := id; ho_guid := guid |}])%list;
     gather_errors := gather_errors s; requested := requested s;
     api_url := api_url s; page := page s;
     harvest_obj_ids := (harvest_obj_ids s ++ [id])%list |}.

Definition save_gather_error (e : exn) (s : gather_state) : gather_state :=
  {| objects := objects s;
     gather_errors :=
       (gather_errors s ++ [{| ge_url := api_url s; ge_cause := e |}])%list;
     requested := requested s; api_url := api_url s; page := page s;
     harvest_obj_ids := harvest_obj_ids s |}.

(** [for row in data['rows']: ...] *)
Fixpoint save_rows (rows : list value) : M unit :=
  match rows with
  | [] => ret tt
  | row :: rest =>
      guid <~ lift (subscript row "id") ;;
      modify (save_object guid) ;;;
      save_rows rest
  end.

(** How a run of the loop ends: [continue_gather] became false, or the
    fuel of the model ran out with [continue_gather] still true. *)
Inductive loop_end : Type := Finished | StillGathering.

Section Harvester.

(** [json.loads] of the source's configuration text. *)
Variable json_loads : string -> result value.
(** [requests.get(api_url, headers=headers).json()]: the decoded body,
    or the exception of the request or of the decoding. *)
Variable http_get_json : string -> result value.

(** [self.config] is whatever JSON value the configuration text holds,
    an empty dict when there is no text. *)
Definition _set_config (config_str : string) : result value :=
  config <- (if String.eqb config_str "" then Ok (VDict [])
             else json_loads config_str) ;;
  has_user <- contains config "user" ;;
  if negb has_user then setitem config "user" (VStr HARVEST_USER)
  else Ok config.

Variable source_config : string.
Variable source_url : string.

(** One pass of the [while continue_gather] body; the result is the
    new [continue_gather]. *)
Definition gather_page : M bool :=
  config <~ lift (_set_config source_config) ;;
  let base_url := rstrip_slash source_url in
  p <~ (fun s => (Ok (page s), s)) ;;
  url <~ lift (search_url config base_url p) ;;
  modify (set_api_url url) ;;;
  modify (log_request url) ;;;
  data <~ lift (http_get_json url) ;;
  rows <~ lift (r <- subscript data "rows" ;; iterate r) ;;
  save_rows rows ;;;
  modify next_page ;;;
  offset <~ lift (v <- subscript data "offset" ;; int v) ;;
  limit <~ lift (v <- subscript data "limit" ;; int v) ;;
  let row_count := (offset + limit)%Z in
  found <~ lift (v <- subscript data "found" ;; int v) ;;
  ret (row_count <? found)%Z.

Fixpoint gather_loop (fuel : nat) : M loop_end :=
  match fuel with
  | O => ret StillGathering
  | S fuel' =>
      continue_gather <~ gather_page ;;
      if continue_gather then gather_loop fuel' else ret Finished
  end.

(** What [gather_stage] hands back: the list of ids, [None] after an
    exception, or nothing yet when the model's fuel is used up. *)
Inductive gather_return : Type :=
| Returns (ids : option (list nat))
| NotYet.

Definition start_gather (objs : list HarvestObject)
  (errs : list GatherError) : gather_state :=
  {| objects := objs; gather_errors := errs; requested := [];
     api_url := None; page := 1; harvest_obj_ids := [] |}.

Definition gather_stage (fuel : nat) (objs : list HarvestObject)
  (errs : list GatherError) : gather_return * gather_state :=
  match gather_loop fuel (start_gather objs errs) with
  | (Ok Finished, s) => (Returns (Some (harvest_obj_ids s)), s)
  | (Ok StillGathering, s) => (NotYet, s)
  | (Raise e, s) => (Returns None, save_gather_error e s)
  end.

(** ** Import stage *)

(** [repr] of lists, tuples and dicts, for [%s]. *)
Variable repr : value -> string.
(** [ckan.lib.munge.munge_tag] of the host catalogue. *)
Variable munge_tag : string -> string.
(** [DdiCkanMetadata().load(content)]: the parsed attribute dict. *)
Variable load : string -> result dict.
(** The catalogue's own configuration ([ckantoolkit.config]). *)
Variable ckan_config : dict.
(** [self._create_or_update_package(pkg_dict, harvest_object)]. *)
Variable _create_or_update_package : dict -> result bool.

Definition is_default_attribute (key : string) : bool :=
  mem_string key DEFAULT_ATTRIBUTES.

(** The first loop of [_convert_to_extras], over the keys the dict had
    when the loop began: [pkg_dict['extras'].append((key,
    pkg_dict[key]))] needs the value under [extras] to be a list. *)
Fixpoint convert_loop (keys : list string) (pkg_dict : dict)
  (keys_to_delete : list string) : result (dict * list string) :=
  match keys with
  | [] => Ok (pkg_dict, keys_to_delete)
  | key :: rest =>
      if negb (is_default_attribute key) then
        extras <- getitem pkg_dict "extras" ;;
        match extras with
        | VList l =>
            v <- getitem pkg_dict key ;;
            convert_loop rest
              (dict_set "extras" (VList (l ++ [VTuple [VStr key; v]])%list) pkg_dict)
              (keys_to_delete ++ [key])%list
        | _ => Raise AttributeError
        end
      else convert_loop rest pkg_dict keys_to_delete
  end.

(** The second loop: [if key in pkg_dict: del pkg_dict[key]]. *)
Definition delete_keys (keys_to_delete : list string) (pkg_dict : dict) : dict :=
  fold_left (fun d key => if dict_mem key d then dict_del key d else d)
    keys_to_delete pkg_dict.

Definition _convert_to_extras (pkg_dict : dict) : result dict :=
  let pkg_dict :=
    if negb (dict_mem "extras" pkg_dict)
    then dict_set "extras" (VList []) pkg_dict
    else pkg_dict in
  r <- convert_loop (dict_keys pkg_dict) pkg_dict [] ;;
  Ok (delete_keys (snd r) (fst r)).

(** [for tag in ...: if isinstance(tag, basestring):
    tags.append(munge_tag(tag[:100]))]; the strings are the [VStr]
    values. *)
Fixpoint munge_tags (raw_tags : list value) : list value :=
  match raw_tags with
  | [] => []
  | VStr tag :: rest => VStr (munge_tag (string_take 100 tag)) :: munge_tags rest
  | _ :: rest => munge_tags rest
  end.

(** [self.config['license']] if ['license' in self.config], else
    [config.get('ckanext.ddi.default_license', '')]. *)
Definition configured_license (config : value) : result value :=
  has_license <- contains config "license" ;;
  if has_license then subscript config "license"
  else Ok (dict_get_default ckan_config "ckanext.ddi.default_license" (VStr "")).

(** The body of the [try] of [import_stage] from the parsed dict up to
    the dict handed to [_create_or_update_package]; [config] is
    [self.config] and [guid] is [harvest_object.guid]. *)
Definition package_dict (config : value) (source_url guid : string)
  (pkg_dict : dict) : result dict :=
  let base_url := rstrip_slash source_url in
  pkg_dict <- _convert_to_extras pkg_dict ;;
  let catalog_path := _get_catalog_path guid in
  let pkg_dict := dict_set "url" (VStr (base_url ++ catalog_path)) pkg_dict in
  license <- configured_license config ;;
  let pkg_dict := dict_set "license_id" license pkg_dict in
  raw_tags <- (t <- getitem pkg_dict "tags" ;; iterate t) ;;
  let pkg_dict := dict_set "tags" (VList (munge_tags raw_tags)) pkg_dict in
  version <- (v <- getitem pkg_dict "version" ;; slice_to 100 v) ;;
  let pkg_dict := dict_set "version" version pkg_dict in
  title <- getitem pkg_dict "title" ;;
  name <- format_s repr "DDI XML of " title ;;
  url <- getitem pkg_dict "url" ;;
  let resources :=
    [ VDict [ ("url", VStr (base_url ++ _get_ddi_api guid));
              ("name", VStr name);
              ("format", VStr "xml") ];
      VDict [ ("url", url);
              ("name", VStr "NADA catalog entry");
              ("format", VStr "html") ] ] in
  Ok (dict_set "resources" (VList resources) pkg_dict).

(** [import_stage] for a harvest object with the given [guid] and
    [content]: [Ok] is what the method returns, with the exception it
    saved as an object error when it returns [False] from the handler;
    [_set_config] runs before the [try]. *)
Definition import_stage (source_url guid content : string)
  : result (bool * option exn) :=
  config <- _set_config source_config ;;
  match (pkg_dict <- load content ;;
         pkg_dict <- package_dict config source_url guid pkg_dict ;;
         _create_or_update_package pkg_dict) with
  | Ok b => Ok (b, None)
  | Raise e => Ok (false, Some e)
  end.

End Harvester.

Fixpoint repeat_string (n : nat) (c : ascii) : string :=
  match n with
  | O => EmptyString
  | S n' => String c (repeat_string n' c)
  end.

(** ** Vocabulary of the statements *)

(** The [extras] entry [(key, value)] of an item of the dict. *)
Definition extra_of (kv : string * value) : value :=
  VTuple [VStr (fst kv); snd kv].

(** The items of a dict whose key is not in [DEFAULT_ATTRIBUTES], in
    iteration order, and those whose key is. *)
Definition unrecognised (d : dict) : dict :=
  filter (fun kv => negb (is_default_attribute (fst kv))) d.

Definition recognised (d : dict) : dict :=
  filter (fun kv => is_default_attribute (fst kv)) d.

(** The entries the first loop appends while it walks [keys]. *)
Definition moved (keys : list string) (d : dict) : list value :=
  flat_map (fun k =>
    if is_default_attribute k then []
    else match dict_get k d with
         | Some v => [VTuple [VStr k; v]]
         | None => []
         end) keys.

(** The key of an [extras] entry, and how many entries of a list of
    extras carry a given key. *)
Definition entry_key (x : value) : option string :=
  match x with
  | VTuple [VStr k; _] => Some k
  | _ => None
  end.

Definition has_key (k : string) (x : value) : bool :=
  match entry_key x with
  | Some k' => String.eqb k k'
  | None => false
  end.

Definition count_key (k : string) (extras : list value) : nat :=
  length (filter (has_key k) extras).

(** The raw map of the normalisation example: [{"id": "1", "title": "T",
    "tags": ["Foo Bar", "x"*200, 42], "version": "v"*200,
    "custom_field": "Z"}]. *)
Definition example_raw : dict :=
  [ ("id", VStr "1");
    ("title", VStr "T");
    ("tags", VList [VStr "Foo Bar"; VStr (repeat_string 200 "x"); VInt 42]);
    ("version", VStr (repeat_string 200 "v"));
    ("custom_field", VStr "Z") ].

(** A raw map that already has the entry [("foo", "Z")] in [extras]
    and the unrecognised key [foo] with the same value. *)
Definition raw_with_extras : dict :=
  [ ("extras", VList [VTuple [VStr "foo"; VStr "Z"]]);
    ("foo", VStr "Z");
    ("id", VStr "1") ].

(** A stand-in for the catalogue's [munge_tag] in the examples: ASCII
    letters lower-cased, blanks turned into ["-"], characters other than
    letters, digits and ["-"] dropped. The statements below hold for
    every [munge_tag]. *)
Fixpoint munge_tag_ascii (tag : string) : string :=
  match tag with
  | EmptyString => EmptyString
  | String c r =>
      let n := nat_of_ascii c in
      if ((65 <=? n) && (n <=? 90))%nat
      then String (ascii_of_nat (n + 32)) (munge_tag_ascii r)
      else if ((97 <=? n) && (n <=? 122))%nat || is_digit c || (n =? 45)%nat
      then String c (munge_tag_ascii r)
      else if (n =? 32)%nat then String "-" (munge_tag_ascii r)
      else munge_tag_ascii r
  end.

(** A stand-in for [repr] of containers in the examples. *)
Definition repr_opaque (v : value) : string := "<object>".

(** The two resources of a package for [base_url], [guid] and the name
    of the XML resource. *)
Definition synthetic_resources (base_url guid name : string) : list value :=
  [ VDict [ ("url", VStr (base_url ++ "/index.php/catalog/ddi/" ++ guid));
            ("name", VStr name);
            ("format", VStr "xml") ];
    VDict [ ("url", VStr (base_url ++ "/index.php/catalog/" ++ guid));
            ("name", VStr "NADA catalog entry");
            ("format", VStr "html") ] ].

(** A raw map that brings a [url] and a [resources] of its own. *)
Definition raw_with_url_and_resources : dict :=
  [ ("id", VStr "1");
    ("title", VStr "T");
    ("url", VStr "http://elsewhere.example/x");
    ("tags", VList [VStr "Foo Bar"]);
    ("version", VStr "1.0");
    ("resources",
     VList [VDict [("url", VStr "http://elsewhere.example/data.csv")]]) ].

(** The package built from it for the source [http://nada.example/]
    and the identifier [639]. *)
Definition package_639 : dict :=
  [ ("id", VStr "1");
    ("title", VStr "T");
    ("url", VStr "http://nada.example/index.php/catalog/639");
    ("tags", VList [VStr "foo-bar"]);
    ("version", VStr "1.0");
    ("extras",
     VList [VTuple [VStr "resources";
                    VList [VDict [("url", VStr "http://elsewhere.example/data.csv")]]]]);
    ("license_id", VStr "");
    ("resources",
     VList (synthetic_resources "http://nada.example" "639" "DDI XML of T")) ].

(** ** Vocabulary of the gather statements *)

(** [data['rows']] as the loop walks it, and the three counts as
    [int(...)] reads them, in the order the code reads them. *)
Definition rows_of (data : value) : result (list value) :=
  r <- subscript data "rows" ;; iterate r.

Definition counts (data : value) : result (Z * Z * Z) :=
  offset <- (v <- subscript data "offset" ;; int v) ;;
  limit <- (v <- subscript data "limit" ;; int v) ;;
  found <- (v <- subscript data "found" ;; int v) ;;
  Ok (offset, limit, found).

(** The [id]s of the rows up to the first row that has none, and the
    exception that row raises. *)
Fixpoint scan_rows (rows : list value) : list value * option exn :=
  match rows with
  | [] => ([], None)
  | row :: rest =>
      match subscript row "id" with
      | Ok guid => (guid :: fst (scan_rows rest), snd (scan_rows rest))
      | Raise e => ([], Some e)
      end
  end.

(** A decoded body reports the row ids [guids] and the three counts. *)
Definition reports (data : value) (guids : list value)
  (offset limit found : Z) : Prop :=
  exists rows,
    rows_of data = Ok rows /\
    scan_rows rows = (guids, None) /\
    counts data = Ok (offset, limit, found).

(** What one answer of the server amounts to for the loop: the ids of
    the rows that get saved, and whether the loop goes on, ends, or an
    exception comes up (the request or the decoding fails, [rows] is
    missing or cannot be walked, a row has no [id], or a count is
    missing or is no integer). *)
Inductive page_result : Type :=
| PageMore
| PageLast
| PageFails (e : exn).

Definition page_summary (answer : result value) : list value * page_result :=
  match answer with
  | Raise e => ([], PageFails e)
  | Ok data =>
      match rows_of data with
      | Raise e => ([], PageFails e)
      | Ok rows =>
          match snd (scan_rows rows) with
          | Some e => (fst (scan_rows rows), PageFails e)
          | None =>
              match counts data with
              | Raise e => (fst (scan_rows rows), PageFails e)
              | Ok (offset, limit, found) =>
                  (fst (scan_rows rows),
                   if (offset + limit <? found)%Z then PageMore else PageLast)
              end
          end
      end
  end.

Definition save_all (guids : list value) (s : gather_state) : gather_state :=
  fold_left (fun st guid => save_object guid st) guids s.

(** The state after a page whose rows had the ids [guids]. *)
Definition page_done (u : string) (guids : list value) (s : gather_state)
  : gather_state :=
  next_page (save_all guids (log_request u (set_api_url u s))).

(** Harvest objects for [guids], numbered from [n]. *)
Fixpoint number_from (n : nat) (guids : list value) : list HarvestObject :=
  match guids with
  | [] => []
  | guid :: rest => {| ho_id := n; ho_guid := guid |} :: number_from (S n) rest
  end.

(** The pages [p], [p+1], ... for [n] pages. *)
Fixpoint pages_from (p : Z) (n : nat) : list Z :=
  match n with
  | O => []
  | S n' => p :: pages_from (p + 1) n'
  end.

(** The server answers the pages from [p] on with the row ids of
    [pages], one list per page, and each answer asks for more. *)
Fixpoint serves_more (http_get_json : string -> result value)
  (url : Z -> string) (p : Z) (pages : list (list value)) : Prop :=
  match pages with
  | [] => True
  | guids :: rest =>
      page_summary (http_get_json (url p)) = (guids, PageMore) /\
      serves_more http_get_json url (p + 1) rest
  end.

(** [gather_stage] never returns, whatever the fuel, and saves no
    gather error while it asks for one page after the other. *)
Definition gather_never_returns (json_loads http_get_json : string -> result value)
  (source_config source_url : string) (url : Z -> string) : Prop :=
  forall fuel,
    fst (gather_stage json_loads http_get_json source_config source_url fuel [] [])
      = NotYet /\
    gather_errors
      (snd (gather_stage json_loads http_get_json source_config source_url fuel [] []))
      = [] /\
    requested
      (snd (gather_stage json_loads http_get_json source_config source_url fuel [] []))
      = map url (pages_from 1 fuel).

(** ** Example servers *)

Definition example_row (id : Z) : value :=
  VDict [("id", VStr (string_of_Z id)); ("title", VStr "Business Survey 2018")].

Definition example_rows (first : Z) (n : nat) : list value :=
  map example_row (pages_from first n).

Definition example_body (rows : list value) (offset limit found : Z) : value :=
  VDict [ ("rows", VList rows); ("offset", VInt offset);
          ("limit", VInt limit); ("found", VStr (string_of_Z found)) ].

(** The search URL of page [p] of [http://nada.example] for
    [public_use]. *)
Definition example_url (p : Z) : string :=
  "http://nada.example/index.php/api/v2/catalog/search/format/json/?dtype[]=2&page="
  ++ string_of_Z p.

Definition no_json_loads (s : string) : result value :=
  Raise (JSONDecodeError "no configuration").

(** A catalogue of 25 records served 10 to a page. *)
Definition server_25 (u : string) : result value :=
  if String.eqb u (example_url 1) then Ok (example_body (example_rows 1 10) 0 10 25)
  else if String.eqb u (example_url 2) then Ok (example_body (example_rows 11 10) 10 10 25)
  else if String.eqb u (example_url 3) then Ok (example_body (example_rows 21 5) 20 10 25)
  else Raise (RequestException "404").

(** An empty catalogue. *)
Definition server_empty (u : string) : result value :=
  Ok (example_body [] 0 10 0).

(** A server that answers every page with the first one: the reported
    offset and limit never advance. *)
Definition server_stuck (u : string) : result value :=
  Ok (example_body (example_rows 1 10) 0 10 25).

(** The catalogue of 25 records with a connection that breaks on the
    third page. *)
Definition server_breaks_on_3 (u : string) : result value :=
  if String.eqb u (example_url 3) then Raise (RequestException "connection reset")
  else server_25 u.

(** The same catalogue with a second page whose third row has no [id]. *)
Definition server_row_without_id (u : string) : result value :=
  if String.eqb u (example_url 2)
  then Ok (example_body
             [example_row 11; example_row 12; VDict [("title", VStr "untitled")];
              example_row 14] 10 10 25)
  else server_25 u.

(** What of a state is left to see once [gather_stage] is over. *)
Definition store_of (s : gather_state)
  : list HarvestObject * list GatherError * list string * option string :=
  (objects s, gather_errors s, requested s, api_url s).

(** The state after the pages whose rows had the ids [pages], one list
    per page. *)
Fixpoint pages_done (url : Z -> string) (pages : list (list value))
  (s : gather_state) : gather_state :=
  match pages with
  | [] => s
  | guids :: rest => pages_done url rest (page_done (url (page s)) guids s)
  end.

(** The configuration [_set_config] makes of an empty configuration
    text, and the ids of the rows [example_rows first n]. *)
Definition example_config : value := VDict [("user", VStr HARVEST_USER)].

Definition example_guids (first : Z) (n : nat) : list value :=
  map (fun id => VStr (string_of_Z id)) (pages_from first n).

(** ** Fetch stage *)

(** A harvest object as [fetch_stage] reads and writes it: its [guid],
    its [content], and the URL and the configuration text of its
    source. *)
Record harvest_object : Type := {
  obj_guid : string;
  obj_content : option string;
  obj_source_url : string;
  obj_source_config : string }.

(** The object errors the stages save: ['No harvest object received'],
    ['Unable to get content for package: %s: %r / %s' % (ddi_api_url,
    e, ...)] and ['Exception in import stage: %r / %s' % (e, ...)]. *)
Inductive ObjectError : Type :=
| NoHarvestObject
| FetchFailed (ddi_api_url : option string) (e : exn)
| ImportFailed (e : exn).

(** [harvest_object.content = r.text; harvest_object.save()] *)
Definition set_content (text : string) (ho : harvest_object) : harvest_object :=
  {| obj_guid := obj_guid ho; obj_content := Some text;
     obj_source_url := obj_source_url ho;
     obj_source_config := obj_source_config ho |}.

Section Fetch.

(** [json.loads] of the source's configuration text. *)
Variable json_loads : string -> result value.
(** [requests.get(ddi_api_url, headers=headers)] with [r.encoding =
    'utf-8'] and [r.text]: the body as text, or the exception of the
    request. *)
Variable http_get_text : string -> result string.

(** [None] stands for a harvest object that is not there: the first
    statement reads [harvest_object.job] before [if not harvest_object]
    is reached, and an object that is there is never false. The
    result holds what the method returns, the object and the object
    errors saved. *)
Definition fetch_stage (ho : option harvest_object) (errors : list ObjectError)
  : result (bool * option harvest_object * list ObjectError) :=
  match ho with
  | None => Raise AttributeError
  | Some ho =>
      config <- _set_config json_loads (obj_source_config ho) ;;
      let base_url := rstrip_slash (obj_source_url ho) in
      let ddi_api_url := base_url ++ _get_ddi_api (obj_guid ho) in
      match http_get_text ddi_api_url with
      | Ok text => Ok (true, Some (set_content text ho), errors)
      | Raise e =>
          Ok (false, Some ho, (errors ++ [FetchFailed (Some ddi_api_url) e])%list)
      end
  end.

End Fetch.

(** ** Vocabulary of the further statements *)

(** [s] with [n] slashes appended. *)
Fixpoint add_slashes (n : nat) (s : string) : string :=
  match n with
  | O => s
  | S n' => add_slashes n' s ++ "/"
  end.

(** The number of strings among raw tags. *)
Definition count_strings (raw_tags : list value) : nat :=
  length (filter (fun x => match x with VStr _ => true | _ => false end) raw_tags).


(** The last character of a string. *)
Fixpoint last_char (s : string) : option ascii :=
  match s with
  | EmptyString => None
  | String c EmptyString => Some c
  | String _ r => last_char r
  end.

(** ** Further examples *)

(** [json.loads] of a configuration whose access type is a list, and of
    one that names a harvest user and a license. *)
Definition loads_list_access_type (s : string) : result value :=
  Ok (VDict [("access_type", VList [VStr "public_use"])]).

Definition loads_user_and_license (s : string) : result value :=
  Ok (VDict [("user", VStr "admin"); ("license", VStr "cc-by")]).

(** [isinstance(x, basestring)] on a value. *)
Definition is_string (x : value) : bool :=
  match x with VStr _ => true | _ => false end.

(** A document without a title, and one whose tags are [None]. *)
Definition raw_without_title : dict :=
  [ ("id", VStr "7"); ("tags", VList []); ("version", VStr "1") ].

Definition raw_with_null_tags : dict :=
  [ ("id", VStr "7"); ("title", VStr "T"); ("tags", VNone);
    ("version", VStr "1") ].

(** The package built from [example_raw] for the source
    [http://nada.example/] and the identifier [1]. *)
Definition example_package : dict :=
  Eval vm_compute in
    match package_dict repr_opaque munge_tag_ascii [] example_config
            "http://nada.example/" "1" example_raw with
    | Ok rec => rec
    | Raise _ => []
    end.

(** A server that has the DDI document of record 639 only, the harvest
    object of that record before it is fetched, a parser that reads
    every document as [raw_with_url_and_resources], and a catalogue that
    stores every package. *)
Definition ddi_server (u : string) : result string :=
  if String.eqb u "http://nada.example/index.php/catalog/ddi/639"
  then Ok "<codeBook><stdyDscr/></codeBook>"
  else Raise (RequestException "404").

Definition object_639 : harvest_object :=
  {| obj_guid := "639"; obj_content := None;
     obj_source_url := "http://nada.example/"; obj_source_config := "" |}.

Definition load_example (content : string) : result dict :=
  Ok raw_with_url_and_resources.

Definition store_everything (pkg_dict : dict) : result bool := Ok true.

(** The number of pages of a catalogue of [found] records served
    [limit] to a page: at least one, the empty catalogue has a page
    too. *)
Definition page_count (limit found : Z) : nat :=
  Z.to_nat (Z.max 1 ((found + limit - 1) / limit)).

(** * Properties *)

(** ** Dictionaries *)

Lemma dict_get_set_same k v d : dict_get k (dict_set k v d) = Some v.
Proof.
  induction d as [|[k' v'] r IH]; simpl.
  - now rewrite String.eqb_refl.
  - destruct (String.eqb k k') eqn:E; simpl; rewrite E; auto.
Qed.

Lemma dict_get_set_other k k' v d :
  k <> k' -> dict_get k (dict_set k' v d) = dict_get k d.
Proof.
  intros N. induction d as [|[k2 v2] r IH]; simpl.
  - apply String.eqb_neq in N. now rewrite N.
  - destruct (String.eqb k' k2) eqn:E; simpl.
    + apply String.eqb_eq in E. subst k2.
      apply String.eqb_neq in N. now rewrite N.
    + now rewrite IH.
Qed.

Lemma dict_set_set k v v' d : dict_set k v (dict_set k v' d) = dict_set k v d.
Proof.
  induction d as [|[k2 v2] r IH]; simpl.
  - now rewrite String.eqb_refl.
  - destruct (String.eqb k k2) eqn:E; simpl; rewrite E; [reflexivity|].
    now rewrite IH.
Qed.

Lemma dict_set_same_value k v d : dict_get k d = Some v -> dict_set k v d = d.
Proof.
  induction d as [|[k2 v2] r IH]; simpl; [discriminate|].
  destruct (String.eqb k k2) eqn:E; intros H.
  - now inversion H.
  - now rewrite IH.
Qed.

Lemma dict_keys_set_present k v d :
  dict_mem k d = true -> dict_keys (dict_set k v d) = dict_keys d.
Proof.
  unfold dict_mem. induction d as [|[k2 v2] r IH]; simpl; [discriminate|].
  destruct (String.eqb k k2) eqn:E; simpl; intros H; [reflexivity|].
  f_equal. now apply IH.
Qed.

Lemma dict_set_absent k v d :
  dict_mem k d = false -> dict_set k v d = (d ++ [(k, v)])%list.
Proof.
  unfold dict_mem. induction d as [|[k2 v2] r IH]; simpl; [reflexivity|].
  destruct (String.eqb k k2) eqn:E; simpl; intros H; [discriminate|].
  f_equal. now apply IH.
Qed.

Lemma dict_get_None_not_key k d : dict_get k d = None <-> ~ In k (dict_keys d).
Proof.
  induction d as [|[k2 v2] r IH]; simpl.
  - tauto.
  - destruct (String.eqb k k2) eqn:E.
    + apply String.eqb_eq in E. subst. split; [discriminate | tauto].
    + apply String.eqb_neq in E. rewrite IH. split; intros H.
      * intros [C|C]; [congruence | tauto].
      * tauto.
Qed.

Lemma dict_mem_key k d : dict_mem k d = true <-> In k (dict_keys d).
Proof.
  unfold dict_mem. destruct (dict_get k d) eqn:E.
  - split; [intros _ | reflexivity].
    destruct (in_dec string_dec k (dict_keys d)) as [I|I]; [exact I|].
    apply dict_get_None_not_key in I. congruence.
  - split; [discriminate|]. intros I.
    apply dict_get_None_not_key in E. tauto.
Qed.

Lemma dict_get_item k v d : wf_dict d -> In (k, v) d <-> dict_get k d = Some v.
Proof.
  unfold wf_dict. induction d as [|[k2 v2] r IH]; simpl; intros W.
  - split; [tauto | discriminate].
  - inversion W as [|? ? N W']; subst.
    destruct (String.eqb k k2) eqn:E.
    + apply String.eqb_eq in E. subst k2. split.
      * intros [H|H]; [now inversion H|].
        exfalso. apply N. change k with (fst (k, v)). now apply in_map.
      * intros H. inversion H. now left.
    + apply String.eqb_neq in E. rewrite <- (IH W'). split.
      * intros [H|H]; [inversion H; congruence | exact H].
      * now right.
Qed.

Lemma dict_get_filter (p : string -> bool) k d :
  dict_get k (filter (fun kv => p (fst kv)) d) =
  if p k then dict_get k d else None.
Proof.
  induction d as [|[k2 v2] r IH]; simpl.
  - now destruct (p k).
  - destruct (p k2) eqn:P; simpl.
    + destruct (String.eqb k k2) eqn:E.
      * apply String.eqb_eq in E. subst. now rewrite P.
      * exact IH.
    + destruct (String.eqb k k2) eqn:E.
      * apply String.eqb_eq in E. subst. rewrite IH. now rewrite P.
      * exact IH.
Qed.

Lemma wf_dict_filter (f : string * value -> bool) d :
  wf_dict d -> wf_dict (filter f d).
Proof.
  unfold wf_dict, dict_keys. induction d as [|kv r IH]; simpl; intros W.
  - constructor.
  - inversion W as [|? ? N W']; subst. destruct (f kv); simpl; [|auto].
    constructor; [|auto]. intros I. apply N.
    apply in_map_iff in I. destruct I as [x [Hx I]].
    apply filter_In in I. apply in_map_iff. exists x. tauto.
Qed.

Lemma wf_dict_set k v d : wf_dict d -> wf_dict (dict_set k v d).
Proof.
  intros W. destruct (dict_mem k d) eqn:E.
  - unfold wf_dict. now rewrite dict_keys_set_present.
  - rewrite dict_set_absent by exact E. unfold wf_dict, dict_keys.
    rewrite map_app. apply NoDup_app; [exact W | repeat constructor; simpl; tauto |].
    intros a I [C|[]]. subst a. apply (proj2 (dict_mem_key k d)) in I. congruence.
Qed.

(** ** Reclassification *)

Lemma unrecognised_not_extras k : is_default_attribute k = false -> k <> "extras".
Proof. intros H E. subst k. discriminate H. Qed.

Lemma moved_ext keys d d' :
  (forall k, In k keys -> is_default_attribute k = false ->
             dict_get k d = dict_get k d') ->
  moved keys d = moved keys d'.
Proof.
  induction keys as [|k r IH]; simpl; intros H; [reflexivity|].
  rewrite IH by (intros; apply H; auto).
  destruct (is_default_attribute k) eqn:E; [reflexivity|].
  now rewrite (H k) by auto.
Qed.

Lemma convert_loop_spec keys : forall d e keys_to_delete,
  dict_get "extras" d = Some (VList e) ->
  (forall k, In k keys -> dict_mem k d = true) ->
  convert_loop keys d keys_to_delete =
  Ok (dict_set "extras" (VList (e ++ moved keys d)) d,
      (keys_to_delete ++ filter (fun k => negb (is_default_attribute k)) keys)%list).
Proof.
  induction keys as [|key rest IH]; intros d e ktd He Hk; simpl.
  - rewrite !app_nil_r. now rewrite dict_set_same_value.
  - destruct (is_default_attribute key) eqn:D; simpl.
    + apply IH; auto. intros; apply Hk; now right.
    + unfold getitem at 1. rewrite He. simpl.
      assert (M : dict_mem key d = true) by (apply Hk; now left).
      unfold dict_mem in M. unfold getitem.
      destruct (dict_get key d) as [v|] eqn:G; [|discriminate]. simpl.
      rewrite (IH _ (e ++ [VTuple [VStr key; v]])%list).
      * rewrite dict_set_set, <- !app_assoc. simpl.
        rewrite (moved_ext rest _ d); [reflexivity|].
        intros k _ Dk. apply dict_get_set_other.
        now apply unrecognised_not_extras.
      * apply dict_get_set_same.
      * intros k I. apply dict_mem_key. rewrite dict_keys_set_present.
        -- apply dict_mem_key. apply Hk. now right.
        -- unfold dict_mem. now rewrite He.
Qed.

Lemma moved_items d :
  wf_dict d -> moved (dict_keys d) d = map extra_of (unrecognised d).
Proof.
  unfold wf_dict. induction d as [|[k v] r IH]; intros W; [reflexivity|].
  inversion W as [|? ? N W']; subst. simpl.
  rewrite String.eqb_refl.
  rewrite (moved_ext (dict_keys r) _ r).
  - rewrite (IH W'). unfold unrecognised. simpl.
    now destruct (is_default_attribute k).
  - intros k' I _. simpl. destruct (String.eqb k' k) eqn:E; [|reflexivity].
    apply String.eqb_eq in E. subst k'. contradiction.
Qed.

Lemma dict_del_filter k d :
  wf_dict d ->
  (if dict_mem k d then dict_del k d else d) =
  filter (fun kv => negb (String.eqb k (fst kv))) d.
Proof.
  unfold wf_dict, dict_mem. induction d as [|[k2 v2] r IH]; intros W; simpl.
  - reflexivity.
  - inversion W as [|? ? N W']; subst. specialize (IH W').
    destruct (String.eqb k k2) eqn:E; simpl.
    + apply String.eqb_eq in E. subst k2. symmetry. apply forallb_filter_id.
      apply forallb_forall. intros [k3 v3] I. simpl.
      destruct (String.eqb k k3) eqn:E3; [|reflexivity].
      apply String.eqb_eq in E3. subst k3. exfalso. apply N.
      change k with (fst (k, v3)). now apply in_map.
    + destruct (dict_get k r); rewrite <- IH; reflexivity.
Qed.

Lemma delete_keys_filter ks : forall d,
  wf_dict d ->
  delete_keys ks d = filter (fun kv => negb (mem_string (fst kv) ks)) d.
Proof.
  unfold delete_keys. induction ks as [|k r IH]; intros d W; simpl.
  - symmetry. apply forallb_filter_id. now apply forallb_forall.
  - rewrite dict_del_filter by exact W.
    rewrite IH by (now apply wf_dict_filter).
    clear. induction d as [|[k2 v2] d IH]; simpl; [reflexivity|].
    rewrite (String.eqb_sym k2 k).
    destruct (String.eqb k k2); simpl; rewrite IH; reflexivity.
Qed.

Lemma mem_string_In k l : mem_string k l = true <-> In k l.
Proof.
  unfold mem_string. rewrite existsb_exists. split.
  - intros [x [I E]]. apply String.eqb_eq in E. now subst.
  - intros I. exists k. split; [exact I | apply String.eqb_refl].
Qed.

Lemma delete_unrecognised d :
  wf_dict d ->
  delete_keys (filter (fun k => negb (is_default_attribute k)) (dict_keys d)) d =
  recognised d.
Proof.
  intros W. rewrite delete_keys_filter by exact W. unfold recognised.
  apply filter_ext_in. intros [k v] I. simpl.
  destruct (is_default_attribute k) eqn:D.
  - destruct (mem_string k _) eqn:M; [|reflexivity].
    apply mem_string_In in M. apply filter_In in M. rewrite D in M.
    simpl in M. destruct M; discriminate.
  - assert (M : mem_string k
      (filter (fun k => negb (is_default_attribute k)) (dict_keys d)) = true).
    { apply mem_string_In. apply filter_In. rewrite D. split; [|reflexivity].
      change k with (fst (k, v)). now apply in_map. }
    now rewrite M.
Qed.

Lemma unrecognised_set_default k v d :
  is_default_attribute k = true -> unrecognised (dict_set k v d) = unrecognised d.
Proof.
  intros D. unfold unrecognised.
  induction d as [|[k2 v2] r IH]; simpl.
  - now rewrite D.
  - destruct (String.eqb k k2) eqn:E; simpl.
    + apply String.eqb_eq in E. subst k2. now rewrite D.
    + now rewrite IH.
Qed.

(** The first loop leaves the key set alone, so the second loop keeps
    exactly the recognised items; [extras] ends as what was there
    followed by one entry per unrecognised item. *)
Lemma convert_list_extras pkg_dict e0 :
  wf_dict pkg_dict ->
  dict_get "extras" pkg_dict = Some (VList e0) ->
  _convert_to_extras pkg_dict =
  Ok (recognised
        (dict_set "extras"
           (VList (e0 ++ map extra_of (unrecognised pkg_dict))) pkg_dict)).
Proof.
  intros W He. unfold _convert_to_extras, dict_mem. rewrite He. simpl.
  rewrite (convert_loop_spec _ _ e0) by
    (auto; intros k I; now apply dict_mem_key).
  simpl. rewrite moved_items by exact W.
  rewrite <- (dict_keys_set_present "extras"
    (VList (e0 ++ map extra_of (unrecognised pkg_dict))) pkg_dict)
    by (unfold dict_mem; now rewrite He).
  now rewrite delete_unrecognised by (now apply wf_dict_set).
Qed.

Lemma convert_no_extras pkg_dict :
  wf_dict pkg_dict ->
  dict_get "extras" pkg_dict = None ->
  _convert_to_extras pkg_dict =
  Ok (recognised
        (dict_set "extras"
           (VList ([] ++ map extra_of (unrecognised pkg_dict))) pkg_dict)).
Proof.
  intros W He.
  assert (E : _convert_to_extras pkg_dict =
              _convert_to_extras (dict_set "extras" (VList []) pkg_dict)).
  { unfold _convert_to_extras, dict_mem. rewrite He, dict_get_set_same.
    reflexivity. }
  rewrite E, (convert_list_extras _ []).
  - rewrite dict_set_set, unrecognised_set_default; reflexivity.
  - now apply wf_dict_set.
  - apply dict_get_set_same.
Qed.

Lemma dict_get_recognised k d :
  dict_get k (recognised d) = if is_default_attribute k then dict_get k d else None.
Proof. apply (dict_get_filter is_default_attribute). Qed.

Lemma dict_get_unrecognised k d :
  dict_get k (unrecognised d) = if is_default_attribute k then None else dict_get k d.
Proof.
  unfold unrecognised.
  rewrite (dict_get_filter (fun k => negb (is_default_attribute k))).
  now destruct (is_default_attribute k).
Qed.

Lemma In_appended k v d :
  wf_dict d ->
  In (VTuple [VStr k; v]) (map extra_of (unrecognised d)) <->
  dict_get k d = Some v /\ is_default_attribute k = false.
Proof.
  intros W. rewrite in_map_iff. split.
  - intros [[k' v'] [E I]]. unfold extra_of in E. simpl in E.
    inversion E; subst k' v'.
    apply (dict_get_item k v) in I; [|now apply wf_dict_filter].
    rewrite dict_get_unrecognised in I.
    destruct (is_default_attribute k); [discriminate | auto].
  - intros [G D]. exists (k, v). split; [reflexivity|].
    apply dict_get_item; [now apply wf_dict_filter|].
    now rewrite dict_get_unrecognised, D.
Qed.

Lemma count_key_absent k d :
  ~ In k (dict_keys d) -> count_key k (map extra_of d) = 0.
Proof.
  unfold count_key, dict_keys.
  induction d as [|[k2 v2] r IH]; simpl; intros N; [reflexivity|].
  unfold has_key at 1. simpl.
  destruct (String.eqb k k2) eqn:E.
  - apply String.eqb_eq in E. subst k2. tauto.
  - apply IH. tauto.
Qed.

Lemma count_key_items k d :
  wf_dict d -> count_key k (map extra_of d) = if dict_mem k d then 1 else 0.
Proof.
  unfold wf_dict, dict_mem. induction d as [|[k2 v2] r IH]; intros W; [reflexivity|].
  inversion W as [|? ? N W']; subst.
  unfold count_key in *. simpl. unfold has_key at 1. simpl.
  destruct (String.eqb k k2) eqn:E; simpl.
  - apply String.eqb_eq in E. subst k2. f_equal.
    now apply count_key_absent.
  - now apply IH.
Qed.

Lemma count_key_app k l1 l2 :
  count_key k (l1 ++ l2) = count_key k l1 + count_key k l2.
Proof. unfold count_key. now rewrite filter_app, length_app. Qed.

(** What [_convert_to_extras] returns when [extras] is absent or a
    list [e0]. *)
Lemma convert_result raw e0 :
  wf_dict raw ->
  dict_get "extras" raw = Some (VList e0) \/
  (dict_get "extras" raw = None /\ e0 = []) ->
  _convert_to_extras raw =
  Ok (recognised
        (dict_set "extras" (VList (e0 ++ map extra_of (unrecognised raw))) raw)).
Proof.
  intros W [He | [He E0]].
  - now apply convert_list_extras.
  - subst e0. now apply convert_no_extras.
Qed.

(** C1, as amended. For every raw attribute map (keys unique) whose
    [extras] is absent or a list [e0], [_convert_to_extras] returns a
    dict whose [extras] is [e0] followed by the appended entries, where
    each key outside [DEFAULT_ATTRIBUTES] has exactly one appended entry
    [(key, value)] carrying its raw value and is gone from the top
    level, and each key of [DEFAULT_ATTRIBUTES] keeps its top-level
    value and has no appended entry. So a key counts once in [extras]
    exactly when [e0] had no entry for it: an entry already in [e0]
    under the same key stays and is counted besides. *)
Theorem convert_to_extras_partitions (raw : dict) (e0 : list value) :
  wf_dict raw ->
  dict_get "extras" raw = Some (VList e0) \/
  (dict_get "extras" raw = None /\ e0 = []) ->
  exists pkg appended,
    _convert_to_extras raw = Ok pkg /\
    wf_dict pkg /\
    dict_get "extras" pkg = Some (VList (e0 ++ appended)) /\
    (forall k v, In (VTuple [VStr k; v]) appended <->
                 dict_get k raw = Some v /\ is_default_attribute k = false) /\
    (forall k, count_key k appended =
               if dict_mem k raw && negb (is_default_attribute k) then 1 else 0) /\
    (forall k, count_key k (e0 ++ appended) =
               count_key k e0 +
               if dict_mem k raw && negb (is_default_attribute k) then 1 else 0) /\
    (forall k, is_default_attribute k = false -> dict_get k pkg = None) /\
    (forall k, is_default_attribute k = true -> k <> "extras" ->
               dict_get k pkg = dict_get k raw).
Proof.
  intros W He.
  exists (recognised
    (dict_set "extras" (VList (e0 ++ map extra_of (unrecognised raw))) raw)).
  exists (map extra_of (unrecognised raw)).
  assert (C : forall k, count_key k (map extra_of (unrecognised raw)) =
              if dict_mem k raw && negb (is_default_attribute k) then 1 else 0).
  { intros k. rewrite count_key_items by (now apply wf_dict_filter).
    unfold dict_mem. rewrite dict_get_unrecognised.
    destruct (is_default_attribute k); simpl.
    - now rewrite andb_false_r.
    - now rewrite andb_true_r. }
  split; [now apply convert_result|].
  split; [apply wf_dict_filter; now apply wf_dict_set|].
  split; [rewrite dict_get_recognised; simpl; apply dict_get_set_same|].
  split; [intros k v; now apply In_appended|].
  split; [exact C|].
  split; [intros k; now rewrite count_key_app, C|].
  split.
  - intros k D. now rewrite dict_get_recognised, D.
  - intros k D N. rewrite dict_get_recognised, D.
    now apply dict_get_set_other.
Qed.

Lemma wf_raw_with_extras : wf_dict raw_with_extras.
Proof.
  unfold wf_dict, raw_with_extras. simpl.
  repeat (constructor; [simpl; intuition discriminate|]). constructor.
Qed.

Lemma convert_to_extras_partitions_witness :
  exists pkg appended,
    _convert_to_extras raw_with_extras = Ok pkg /\
    wf_dict pkg /\
    dict_get "extras" pkg =
      Some (VList ([VTuple [VStr "foo"; VStr "Z"]] ++ appended)) /\
    (forall k v, In (VTuple [VStr k; v]) appended <->
                 dict_get k raw_with_extras = Some v /\
                 is_default_attribute k = false) /\
    (forall k, count_key k appended =
               if dict_mem k raw_with_extras && negb (is_default_attribute k)
               then 1 else 0) /\
    (forall k, count_key k ([VTuple [VStr "foo"; VStr "Z"]] ++ appended) =
               count_key k [VTuple [VStr "foo"; VStr "Z"]] +
               if dict_mem k raw_with_extras && negb (is_default_attribute k)
               then 1 else 0) /\
    (forall k, is_default_attribute k = false -> dict_get k pkg = None) /\
    (forall k, is_default_attribute k = true -> k <> "extras" ->
               dict_get k pkg = dict_get k raw_with_extras).
Proof.
  apply (convert_to_extras_partitions raw_with_extras
           [VTuple [VStr "foo"; VStr "Z"]]).
  - exact wf_raw_with_extras.
  - left. reflexivity.
Defined.

(** C1, as stated, fails: a raw map whose [extras] already holds
    [("foo", "Z")] and whose unrecognised key [foo] has the value ["Z"]
    ends with that entry twice in [extras]. *)
Lemma convert_to_extras_duplicates_existing_entry :
  _convert_to_extras raw_with_extras =
    Ok [ ("extras", VList [VTuple [VStr "foo"; VStr "Z"];
                           VTuple [VStr "foo"; VStr "Z"]]);
         ("id", VStr "1") ] /\
  count_key "foo"
    [VTuple [VStr "foo"; VStr "Z"]; VTuple [VStr "foo"; VStr "Z"]] = 2.
Proof. split; reflexivity. Qed.

(** C10. If the raw map already has [extras] (a list [e0]),
    [_convert_to_extras] keeps the key at the top level, never makes an
    entry of it, and appends one entry per unrecognised item after
    [e0], in the iteration order of the map; if the raw map has no
    [extras], the list starts empty and receives the same entries. *)
Theorem convert_to_extras_appends_after_existing (raw : dict) :
  wf_dict raw ->
  (forall e0, dict_get "extras" raw = Some (VList e0) ->
     exists pkg,
       _convert_to_extras raw = Ok pkg /\
       dict_get "extras" pkg =
         Some (VList (e0 ++ map extra_of (unrecognised raw)))) /\
  (dict_get "extras" raw = None ->
     exists pkg,
       _convert_to_extras raw = Ok pkg /\
       dict_get "extras" pkg =
         Some (VList ([] ++ map extra_of (unrecognised raw)))) /\
  count_key "extras" (map extra_of (unrecognised raw)) = 0.
Proof.
  intros W. split; [|split].
  - intros e0 He. eexists. split; [exact (convert_list_extras raw e0 W He)|].
    rewrite dict_get_recognised. simpl. apply dict_get_set_same.
  - intros He. eexists. split; [exact (convert_no_extras raw W He)|].
    rewrite dict_get_recognised. simpl. apply dict_get_set_same.
  - rewrite count_key_items by (now apply wf_dict_filter).
    unfold dict_mem. now rewrite dict_get_unrecognised.
Qed.

Lemma convert_to_extras_appends_after_existing_witness :
  (forall e0, dict_get "extras" raw_with_extras = Some (VList e0) ->
     exists pkg,
       _convert_to_extras raw_with_extras = Ok pkg /\
       dict_get "extras" pkg =
         Some (VList (e0 ++ map extra_of (unrecognised raw_with_extras)))) /\
  (dict_get "extras" raw_with_extras = None ->
     exists pkg,
       _convert_to_extras raw_with_extras = Ok pkg /\
       dict_get "extras" pkg =
         Some (VList ([] ++ map extra_of (unrecognised raw_with_extras)))) /\
  count_key "extras" (map extra_of (unrecognised raw_with_extras)) = 0.
Proof.
  apply (convert_to_extras_appends_after_existing raw_with_extras).
  exact wf_raw_with_extras.
Defined.

(** ** Endpoint builders *)

Lemma search_api_public_use page :
  _get_search_api (VStr "public_use") page =
  Ok ("/index.php/api/v2/catalog/search/format/json/?dtype[]=2&page="
      ++ string_of_Z page).
Proof. reflexivity. Qed.

Lemma not_a_key_no_code access_type :
  ~ In access_type (dict_keys ACCESS_TYPES) ->
  getitem ACCESS_TYPES access_type = Raise (KeyError (VStr access_type)).
Proof.
  intros N. unfold getitem.
  apply dict_get_None_not_key in N. now rewrite N.
Qed.

(** C5. For every access type that is not empty and not a key of
    [ACCESS_TYPES], [_get_search_api] raises
    [AccessTypeNotAvailableError], and the gather stage, configured with
    that access type, builds for the same page the URL that
    [_get_search_api('public_use', page)] gives. *)
Theorem unavailable_access_type_falls_back_to_public_use
  (access_type : string) (config : dict) (base_url : string) (page : Z) :
  access_type <> "" ->
  ~ In access_type (dict_keys ACCESS_TYPES) ->
  dict_get "access_type" config = Some (VStr access_type) ->
  _get_search_api (VStr access_type) page =
    Raise (AccessTypeNotAvailableError (VStr access_type)) /\
  exists path,
    _get_search_api (VStr "public_use") page = Ok path /\
    search_url (VDict config) base_url page = Ok (base_url ++ path) /\
    path = "/index.php/api/v2/catalog/search/format/json/?dtype[]=2&page="
           ++ string_of_Z page.
Proof.
  intros _ N C.
  assert (R : _get_search_api (VStr access_type) page =
              Raise (AccessTypeNotAvailableError (VStr access_type))).
  { unfold _get_search_api, access_code. simpl hashable. cbv iota.
    now rewrite not_a_key_no_code. }
  split; [exact R|].
  eexists. split; [apply search_api_public_use|]. split; [|reflexivity].
  unfold search_url, subscript, getitem. rewrite C.
  cbv beta iota delta [bind]. rewrite R.
  rewrite search_api_public_use. reflexivity.
Qed.

Lemma unavailable_access_type_falls_back_to_public_use_witness :
  _get_search_api (VStr "restricted") 3 =
    Raise (AccessTypeNotAvailableError (VStr "restricted")) /\
  exists path,
    _get_search_api (VStr "public_use") 3 = Ok path /\
    search_url
      (VDict [("user", VStr "harvest"); ("access_type", VStr "restricted")])
      "http://nada.example" 3 = Ok ("http://nada.example" ++ path) /\
    path = "/index.php/api/v2/catalog/search/format/json/?dtype[]=2&page="
           ++ string_of_Z 3.
Proof.
  apply (unavailable_access_type_falls_back_to_public_use "restricted"
           [("user", VStr "harvest"); ("access_type", VStr "restricted")]
           "http://nada.example" 3).
  - discriminate.
  - simpl. intuition discriminate.
  - reflexivity.
Defined.

(** C8, as stated, fails: with the access-type filter the path has a
    slash between [json] and the query, so the URL for [public_use],
    page 1, is not [.../search/format/json?dtype[]=2&page=1]. *)
Lemma filtered_search_url_has_slash_before_query :
  search_url (VDict [("access_type", VStr "public_use")]) "http://nada.example" 1 =
    Ok "http://nada.example/index.php/api/v2/catalog/search/format/json/?dtype[]=2&page=1" /\
  String.eqb
    "http://nada.example/index.php/api/v2/catalog/search/format/json/?dtype[]=2&page=1"
    "http://nada.example/index.php/api/v2/catalog/search/format/json?dtype[]=2&page=1"
  = false.
Proof. split; reflexivity. Qed.

(** C8, as amended. For every access type of [ACCESS_TYPES] with a
    numeric code [c] and every page [n], the search URL is
    [{base_url}/index.php/api/v2/catalog/search/format/json/?dtype[]=c&page=n],
    with a slash before the query; when the access type is [None] it is
    [{base_url}/index.php/api/v2/catalog/search/format/json?page=n],
    without that slash and without [dtype[]]. *)
Theorem search_url_shape
  (access_type : string) (c n : Z) (config : dict) (base_url : string) :
  dict_get access_type ACCESS_TYPES = Some (VInt c) ->
  _get_search_api (VStr access_type) n =
    Ok ("/index.php/api/v2/catalog/search/format/json/?dtype[]="
        ++ string_of_Z c ++ "&page=" ++ string_of_Z n) /\
  search_url (VDict (dict_set "access_type" (VStr access_type) config))
    base_url n =
    Ok (base_url ++ "/index.php/api/v2/catalog/search/format/json/?dtype[]="
        ++ string_of_Z c ++ "&page=" ++ string_of_Z n) /\
  _get_search_api VNone n =
    Ok ("/index.php/api/v2/catalog/search/format/json?page=" ++ string_of_Z n) /\
  search_url (VDict (dict_set "access_type" VNone config)) base_url n =
    Ok (base_url ++ "/index.php/api/v2/catalog/search/format/json?page="
        ++ string_of_Z n).
Proof.
  intros A.
  assert (R : _get_search_api (VStr access_type) n =
    Ok ("/index.php/api/v2/catalog/search/format/json/?dtype[]="
        ++ string_of_Z c ++ "&page=" ++ string_of_Z n)).
  { unfold _get_search_api, access_code. simpl hashable. cbv iota.
    unfold getitem. now rewrite A. }
  split; [exact R|]. split; [|split; [reflexivity|]].
  - unfold search_url, subscript, getitem. rewrite dict_get_set_same.
    cbv beta iota delta [bind]. now rewrite R.
  - unfold search_url, subscript, getitem. now rewrite dict_get_set_same.
Qed.

Lemma search_url_shape_witness :
  _get_search_api (VStr "licensed") 4 =
    Ok ("/index.php/api/v2/catalog/search/format/json/?dtype[]="
        ++ string_of_Z 3 ++ "&page=" ++ string_of_Z 4) /\
  search_url
    (VDict (dict_set "access_type" (VStr "licensed") [("user", VStr "harvest")]))
    "http://nada.example" 4 =
    Ok ("http://nada.example"
        ++ "/index.php/api/v2/catalog/search/format/json/?dtype[]="
        ++ string_of_Z 3 ++ "&page=" ++ string_of_Z 4) /\
  _get_search_api VNone 4 =
    Ok ("/index.php/api/v2/catalog/search/format/json?page=" ++ string_of_Z 4) /\
  search_url (VDict (dict_set "access_type" VNone [("user", VStr "harvest")]))
    "http://nada.example" 4 =
    Ok ("http://nada.example"
        ++ "/index.php/api/v2/catalog/search/format/json?page="
        ++ string_of_Z 4).
Proof.
  apply (search_url_shape "licensed" 3 4 [("user", VStr "harvest")]
           "http://nada.example").
  reflexivity.
Defined.

(** ** Import stage *)

(** Splits an equation [... = Ok _] that runs through several binds
    into one equation per call that had to succeed. *)
Ltac ok_inv H :=
  cbv zeta in H; unfold bind in H;
  repeat match type of H with
  | match ?m with Ok _ => _ | Raise _ => _ end = Ok _ =>
      let E := fresh "E" in destruct m eqn:E; [|discriminate H]
  end.

Lemma package_dict_shape repr munge_tag ckan_config config source_url guid raw rec :
  package_dict repr munge_tag ckan_config config source_url guid raw = Ok rec ->
  exists pkg license tags version name,
    _convert_to_extras raw = Ok pkg /\
    rec =
      dict_set "resources"
        (VList (synthetic_resources (rstrip_slash source_url) guid name))
        (dict_set "version" version
           (dict_set "tags" (VList tags)
              (dict_set "license_id" license
                 (dict_set "url"
                    (VStr (rstrip_slash source_url ++ "/index.php/catalog/" ++ guid))
                    pkg)))).
Proof.
  intros H. unfold package_dict in H. ok_inv H.
  inversion H; subst rec; clear H.
  match goal with
  | E : getitem _ "url" = Ok ?u |- _ =>
      unfold getitem in E;
      rewrite !dict_get_set_other, dict_get_set_same in E by discriminate;
      inversion E; subst u; clear E
  end.
  do 5 eexists. split; reflexivity.
Qed.

(** Reads through the assignments of the import stage. *)
Ltac dict_simpl :=
  repeat (rewrite dict_get_set_same || rewrite dict_get_set_other by discriminate).

Lemma kept_field k extras raw :
  is_default_attribute k = true -> k <> "extras" ->
  dict_get k (recognised (dict_set "extras" extras raw)) = dict_get k raw.
Proof.
  intros D N. rewrite dict_get_recognised, D. now apply dict_get_set_other.
Qed.

(** When the import stage gets as far as a package: the raw map has
    unique keys, its [extras] is absent or a list, its [tags] can be
    walked, its [version] can be sliced and its [title] can be
    formatted. The package is then the recognised part of the raw map
    with the six fields the stage sets. *)
Lemma package_dict_succeeds repr munge_tag ckan_config config source_url guid
  raw e0 license tags raw_tags version version' title name :
  wf_dict raw ->
  dict_get "extras" raw = Some (VList e0) \/
  (dict_get "extras" raw = None /\ e0 = []) ->
  configured_license ckan_config config = Ok license ->
  dict_get "tags" raw = Some tags -> iterate tags = Ok raw_tags ->
  dict_get "version" raw = Some version -> slice_to 100 version = Ok version' ->
  dict_get "title" raw = Some title ->
  format_s repr "DDI XML of " title = Ok name ->
  package_dict repr munge_tag ckan_config config source_url guid raw =
  Ok (dict_set "resources"
        (VList (synthetic_resources (rstrip_slash source_url) guid name))
        (dict_set "version" version'
           (dict_set "tags" (VList (munge_tags munge_tag raw_tags))
              (dict_set "license_id" license
                 (dict_set "url"
                    (VStr (rstrip_slash source_url ++ "/index.php/catalog/" ++ guid))
                    (recognised
                       (dict_set "extras"
                          (VList (e0 ++ map extra_of (unrecognised raw)))
                          raw))))))).
Proof.
  intros W He Hl Ht It Hv Sv Hti Fn.
  unfold package_dict. rewrite (convert_result raw e0 W He), Hl.
  cbv beta iota zeta delta [bind]. unfold getitem.
  dict_simpl. rewrite (kept_field "tags"), Ht, It by (reflexivity || discriminate).
  dict_simpl. rewrite (kept_field "version"), Hv, Sv by (reflexivity || discriminate).
  dict_simpl. rewrite (kept_field "title"), Hti, Fn by (reflexivity || discriminate).
  dict_simpl. reflexivity.
Qed.

(** A configuration that is a JSON object always yields a license. *)
Lemma configured_license_dict ckan_config d :
  exists license, configured_license ckan_config (VDict d) = Ok license.
Proof.
  unfold configured_license, contains, subscript, getitem, dict_mem, bind.
  destruct (dict_get "license" d); eexists; reflexivity.
Qed.

(** C2. Whatever the raw attribute map holds, the package that the
    import stage builds has under [resources] a list of exactly two
    entries, both made by the stage itself: the DDI document link with
    format [xml] and the catalog page link with format [html]. A
    [resources] value of the raw map is not among them. *)
Theorem resources_are_the_two_synthetic_links
  (repr : value -> string) (munge_tag : string -> string)
  (ckan_config : dict) (config : value) (source_url guid : string)
  (raw rec : dict) :
  package_dict repr munge_tag ckan_config config source_url guid raw = Ok rec ->
  exists resources name,
    dict_get "resources" rec = Some (VList resources) /\
    length resources = 2 /\
    map (fun r => subscript r "format") resources =
      [Ok (VStr "xml"); Ok (VStr "html")] /\
    resources = synthetic_resources (rstrip_slash source_url) guid name.
Proof.
  intros H. apply package_dict_shape in H.
  destruct H as (pkg & license & tags & version & name & _ & R).
  exists (synthetic_resources (rstrip_slash source_url) guid name), name.
  subst rec. rewrite dict_get_set_same. repeat split.
Qed.

(** C7. The package's [url] is the catalog page of the harvest
    object's identifier, [{base_url}/index.php/catalog/{guid}], whatever
    [url] the raw attribute map had. *)
Theorem url_is_the_catalog_page
  (repr : value -> string) (munge_tag : string -> string)
  (ckan_config : dict) (config : value) (source_url guid : string)
  (raw rec : dict) :
  package_dict repr munge_tag ckan_config config source_url guid raw = Ok rec ->
  dict_get "url" rec =
    Some (VStr (rstrip_slash source_url ++ _get_catalog_path guid)) /\
  _get_catalog_path guid = "/index.php/catalog/" ++ guid.
Proof.
  intros H. apply package_dict_shape in H.
  destruct H as (pkg & license & tags & version & name & _ & R).
  subst rec. split; [|reflexivity].
  rewrite !dict_get_set_other by discriminate.
  apply dict_get_set_same.
Qed.

Example package_639_built :
  package_dict repr_opaque munge_tag_ascii [] example_config
    "http://nada.example/" "639" raw_with_url_and_resources = Ok package_639.
Proof. reflexivity. Qed.

Lemma resources_are_the_two_synthetic_links_witness :
  exists resources name,
    dict_get "resources" package_639 = Some (VList resources) /\
    length resources = 2 /\
    map (fun r => subscript r "format") resources =
      [Ok (VStr "xml"); Ok (VStr "html")] /\
    resources = synthetic_resources (rstrip_slash "http://nada.example/") "639" name.
Proof.
  apply (resources_are_the_two_synthetic_links repr_opaque munge_tag_ascii []
           example_config "http://nada.example/" "639"
           raw_with_url_and_resources package_639).
  reflexivity.
Defined.

Lemma url_is_the_catalog_page_witness :
  dict_get "url" package_639 =
    Some (VStr (rstrip_slash "http://nada.example/" ++ _get_catalog_path "639")) /\
  _get_catalog_path "639" = "/index.php/catalog/" ++ "639".
Proof.
  apply (url_is_the_catalog_page repr_opaque munge_tag_ascii []
           example_config "http://nada.example/" "639"
           raw_with_url_and_resources package_639).
  reflexivity.
Defined.

(** C6. For the raw map [{"id": "1", "title": "T", "tags": ["Foo Bar",
    "x"*200, 42], "version": "v"*200, "custom_field": "Z"}] and a
    [munge_tag] that turns ["Foo Bar"] into ["foo-bar"], the import
    stage builds a package whose [tags] are [["foo-bar", munge_tag("x"*100)]]
    (the integer is dropped, the long tag cut to 100 characters before
    it is munged), whose [version] is ["v"*100], whose [extras] holds
    [("custom_field", "Z")] and which has no top-level [custom_field]. *)
Theorem example_normalisation
  (repr : value -> string) (munge_tag : string -> string)
  (ckan_config config : dict) (source_url guid : string) :
  munge_tag "Foo Bar" = "foo-bar" ->
  exists rec,
    package_dict repr munge_tag ckan_config (VDict config) source_url guid
      example_raw = Ok rec /\
    dict_get "tags" rec =
      Some (VList [VStr "foo-bar"; VStr (munge_tag (repeat_string 100 "x"))]) /\
    dict_get "version" rec = Some (VStr (repeat_string 100 "v")) /\
    String.length (repeat_string 100 "v") = 100 /\
    dict_get "extras" rec = Some (VList [VTuple [VStr "custom_field"; VStr "Z"]]) /\
    dict_get "custom_field" rec = None.
Proof.
  intros M.
  assert (T : munge_tags munge_tag
                [VStr "Foo Bar"; VStr (repeat_string 200 "x"); VInt 42] =
              [VStr "foo-bar"; VStr (munge_tag (repeat_string 100 "x"))]).
  { simpl munge_tags. now rewrite M. }
  destruct (configured_license_dict ckan_config config) as [license L].
  eexists. split.
  - unfold package_dict. unfold example_raw at 1.
    cbn -[munge_tags repeat_string string_take configured_license].
    rewrite L.
    cbn -[munge_tags repeat_string string_take configured_license].
    rewrite T. reflexivity.
  - repeat split; reflexivity.
Qed.

Lemma example_normalisation_witness :
  exists rec,
    package_dict repr_opaque munge_tag_ascii [] (VDict [("user", VStr "harvest")])
      "http://nada.example/" "1" example_raw = Ok rec /\
    dict_get "tags" rec =
      Some (VList [VStr "foo-bar";
                   VStr (munge_tag_ascii (repeat_string 100 "x"))]) /\
    dict_get "version" rec = Some (VStr (repeat_string 100 "v")) /\
    String.length (repeat_string 100 "v") = 100 /\
    dict_get "extras" rec = Some (VList [VTuple [VStr "custom_field"; VStr "Z"]]) /\
    dict_get "custom_field" rec = None.
Proof.
  apply (example_normalisation repr_opaque munge_tag_ascii []
           [("user", VStr "harvest")] "http://nada.example/" "1").
  reflexivity.
Defined.

(** ** Gather stage *)

Lemma save_rows_scan rows : forall s,
  save_rows rows s =
  (match snd (scan_rows rows) with None => Ok tt | Some e => Raise e end,
   save_all (fst (scan_rows rows)) s).
Proof.
  induction rows as [|row rest IH]; intros s; simpl; [reflexivity|].
  unfold mbind, lift, modify.
  destruct (subscript row "id") as [guid|e]; simpl; [|reflexivity].
  apply IH.
Qed.

Lemma save_all_objects guids : forall s,
  objects (save_all guids s) =
  (objects s ++ number_from (length (objects s)) guids)%list.
Proof.
  induction guids as [|g r IH]; intros s; simpl.
  - now rewrite app_nil_r.
  - unfold save_all in *. simpl. rewrite IH. simpl.
    rewrite length_app, <- app_assoc. simpl.
    now rewrite Nat.add_1_r.
Qed.

Lemma save_all_ids guids : forall s,
  harvest_obj_ids (save_all guids s) =
  (harvest_obj_ids s ++ map ho_id (number_from (length (objects s)) guids))%list.
Proof.
  induction guids as [|g r IH]; intros s; simpl.
  - now rewrite app_nil_r.
  - unfold save_all in *. simpl. rewrite IH. simpl.
    rewrite length_app, <- app_assoc. simpl.
    now rewrite Nat.add_1_r.
Qed.

Lemma save_all_rest guids : forall s,
  gather_errors (save_all guids s) = gather_errors s /\
  requested (save_all guids s) = requested s /\
  api_url (save_all guids s) = api_url s /\
  page (save_all guids s) = page s.
Proof.
  induction guids as [|g r IH]; intros s; simpl; [auto|].
  unfold save_all in *. simpl. destruct (IH (save_object g s)) as (A & B & C & D).
  rewrite A, B, C, D. auto.
Qed.

Lemma number_from_app guids1 : forall n guids2,
  number_from n (guids1 ++ guids2) =
  (number_from n guids1 ++ number_from (n + length guids1) guids2)%list.
Proof.
  induction guids1 as [|g r IH]; intros n guids2; simpl.
  - now rewrite Nat.add_0_r.
  - rewrite IH. now rewrite Nat.add_succ_r.
Qed.

Lemma number_from_length guids : forall n, length (number_from n guids) = length guids.
Proof. induction guids; intros n; simpl; auto. Qed.

Lemma number_from_guids guids : forall n, map ho_guid (number_from n guids) = guids.
Proof. induction guids as [|g r IH]; intros n; simpl; [|rewrite IH]; auto. Qed.

Lemma reports_summary data guids offset limit found :
  reports data guids offset limit found ->
  page_summary (Ok data) =
  (guids, if (offset + limit <? found)%Z then PageMore else PageLast).
Proof.
  intros (rows & R & S & C). unfold page_summary. now rewrite R, S, C.
Qed.

Lemma page_done_fields u guids s :
  objects (page_done u guids s) =
    (objects s ++ number_from (length (objects s)) guids)%list /\
  harvest_obj_ids (page_done u guids s) =
    (harvest_obj_ids s ++ map ho_id (number_from (length (objects s)) guids))%list /\
  gather_errors (page_done u guids s) = gather_errors s /\
  requested (page_done u guids s) = (requested s ++ [u])%list /\
  api_url (page_done u guids s) = Some u /\
  page (page_done u guids s) = (page s + 1)%Z.
Proof.
  unfold page_done. cbn [objects harvest_obj_ids gather_errors requested api_url
    page next_page].
  rewrite save_all_objects, save_all_ids.
  destruct (save_all_rest guids (log_request u (set_api_url u s)))
    as (A & B & C & D).
  rewrite A, B, C, D. repeat split.
Qed.

Lemma pages_done_fields url pages : forall s,
  objects (pages_done url pages s) =
    (objects s ++ number_from (length (objects s)) (concat pages))%list /\
  harvest_obj_ids (pages_done url pages s) =
    (harvest_obj_ids s
     ++ map ho_id (number_from (length (objects s)) (concat pages)))%list /\
  gather_errors (pages_done url pages s) = gather_errors s /\
  requested (pages_done url pages s) =
    (requested s ++ map url (pages_from (page s) (length pages)))%list /\
  page (pages_done url pages s) = (page s + Z.of_nat (length pages))%Z.
Proof.
  induction pages as [|guids rest IH]; intros s.
  - simpl. rewrite !app_nil_r, Z.add_0_r. repeat split.
  - cbn [pages_done concat length pages_from map].
    destruct (IH (page_done (url (page s)) guids s)) as (A & B & C & D & E).
    destruct (page_done_fields (url (page s)) guids s)
      as (A' & B' & C' & D' & _ & E').
    rewrite A, B, C, D, E, A', B', C', D', E'.
    rewrite number_from_app, length_app, number_from_length, map_app.
    rewrite <- !app_assoc. repeat split.
    lia.
Qed.

Section GatherProperties.

Variables json_loads http_get_json : string -> result value.
Variables source_config source_url : string.
Variable config : value.
Variable url : Z -> string.

Hypothesis config_loaded : _set_config json_loads source_config = Ok config.
Hypothesis url_built :
  forall p, search_url config (rstrip_slash source_url) p = Ok (url p).

Local Notation "'page_of'" :=
  (gather_page json_loads http_get_json source_config source_url).
Local Notation "'loop'" :=
  (gather_loop json_loads http_get_json source_config source_url).
Local Notation "'stage'" :=
  (gather_stage json_loads http_get_json source_config source_url).

(** One pass of the loop body, by what the server's answer amounts to. *)
Lemma gather_page_summary s :
  match page_summary (http_get_json (url (page s))) with
  | (guids, PageMore) => page_of s = (Ok true, page_done (url (page s)) guids s)
  | (guids, PageLast) => page_of s = (Ok false, page_done (url (page s)) guids s)
  | (guids, PageFails e) =>
      exists s', page_of s = (Raise e, s') /\
        store_of s' =
        store_of (save_all guids
                    (log_request (url (page s)) (set_api_url (url (page s)) s)))
  end.
Proof.
  unfold gather_page, mbind, lift, modify, ret.
  rewrite config_loaded, url_built. unfold page_summary. cbn [set_api_url log_request page].
  destruct (http_get_json (url (page s))) as [data|e];
    [|eexists; split; reflexivity].
  fold (rows_of data).
  destruct (rows_of data) as [rows|e]; [|eexists; split; reflexivity].
  rewrite save_rows_scan.
  destruct (snd (scan_rows rows)) as [e|]; [eexists; split; reflexivity|].
  unfold counts, bind.
  destruct (subscript data "offset") as [vo|e];
    [|eexists; split; [reflexivity|]; unfold store_of; reflexivity].
  destruct (int vo) as [offset|e];
    [|eexists; split; [reflexivity|]; unfold store_of; reflexivity].
  destruct (subscript data "limit") as [vl|e];
    [|eexists; split; [reflexivity|]; unfold store_of; reflexivity].
  destruct (int vl) as [limit|e];
    [|eexists; split; [reflexivity|]; unfold store_of; reflexivity].
  destruct (subscript data "found") as [vf|e];
    [|eexists; split; [reflexivity|]; unfold store_of; reflexivity].
  destruct (int vf) as [found|e];
    [|eexists; split; [reflexivity|]; unfold store_of; reflexivity].
  destruct (offset + limit <? found)%Z; reflexivity.
Qed.


Lemma loop_more fuel s guids :
  page_summary (http_get_json (url (page s))) = (guids, PageMore) ->
  loop (S fuel) s = loop fuel (page_done (url (page s)) guids s).
Proof.
  intros P. pose proof (gather_page_summary s) as G. rewrite P in G.
  simpl. unfold mbind. now rewrite G.
Qed.

Lemma loop_last fuel s guids :
  page_summary (http_get_json (url (page s))) = (guids, PageLast) ->
  loop (S fuel) s = (Ok Finished, page_done (url (page s)) guids s).
Proof.
  intros P. pose proof (gather_page_summary s) as G. rewrite P in G.
  simpl. unfold mbind. now rewrite G.
Qed.

Lemma loop_fails fuel s guids e :
  page_summary (http_get_json (url (page s))) = (guids, PageFails e) ->
  exists s', loop (S fuel) s = (Raise e, s') /\
    store_of s' =
    store_of (save_all guids
                (log_request (url (page s)) (set_api_url (url (page s)) s))).
Proof.
  intros P. pose proof (gather_page_summary s) as G. rewrite P in G.
  destruct G as (s' & G & St). exists s'. split; [|exact St].
  simpl. unfold mbind. now rewrite G.
Qed.

Lemma loop_pages pages : forall s fuel,
  serves_more http_get_json url (page s) pages ->
  loop (length pages + fuel) s = loop fuel (pages_done url pages s).
Proof.
  induction pages as [|guids rest IH]; intros s fuel Sv; [reflexivity|].
  destruct Sv as [P Sv]. cbn [length Nat.add pages_done].
  rewrite (loop_more _ _ _ P). apply IH.
  unfold page_done. cbn [page next_page].
  now destruct (save_all_rest guids
    (log_request (url (page s)) (set_api_url (url (page s)) s)))
    as (_ & _ & _ & ->).
Qed.

Lemma stage_finished fuel objs errs s :
  loop fuel (start_gather objs errs) = (Ok Finished, s) ->
  stage fuel objs errs = (Returns (Some (harvest_obj_ids s)), s).
Proof. intros L. unfold gather_stage. now rewrite L. Qed.

(** C3. The first page asked for is page 1; after a page whose body
    reports [offset], [limit] and [found], the loop asks for the next
    page exactly when [offset + limit < found] and ends otherwise. With
    [found = 0] (no rows, offset 0, limit 10) the stage returns after
    the one request for page 1 with no item; with [found = 25],
    [limit = 10] and offsets 0, 10, 20 it returns after the three
    requests for pages 1, 2, 3 with the 25 items of the three pages. *)
Theorem gather_pages_while_offset_plus_limit_below_found
  (objs : list HarvestObject) (errs : list GatherError) :
  page (start_gather objs errs) = 1%Z /\
  (forall fuel s data guids offset limit found,
      http_get_json (url (page s)) = Ok data ->
      reports data guids offset limit found ->
      loop (S fuel) s =
        if (offset + limit <? found)%Z
        then loop fuel (page_done (url (page s)) guids s)
        else (Ok Finished, page_done (url (page s)) guids s)) /\
  (forall fuel data,
      http_get_json (url 1) = Ok data ->
      reports data [] 0 10 0 ->
      exists s,
        stage (S fuel) objs errs = (Returns (Some []), s) /\
        requested s = [url 1%Z] /\
        objects s = objs /\
        gather_errors s = errs) /\
  (forall fuel d1 d2 d3 g1 g2 g3,
      http_get_json (url 1) = Ok d1 -> reports d1 g1 0 10 25 ->
      http_get_json (url 2) = Ok d2 -> reports d2 g2 10 10 25 ->
      http_get_json (url 3) = Ok d3 -> reports d3 g3 20 10 25 ->
      length g1 = 10 -> length g2 = 10 -> length g3 = 5 ->
      exists ids s,
        stage (3 + fuel) objs errs = (Returns (Some ids), s) /\
        requested s = [url 1%Z; url 2%Z; url 3%Z] /\
        length ids = 25 /\
        ids = map ho_id (number_from (length objs) (g1 ++ g2 ++ g3)) /\
        objects s = (objs ++ number_from (length objs) (g1 ++ g2 ++ g3))%list /\
        gather_errors s = errs).
Proof.
  split; [reflexivity|]. split; [|split].
  - intros fuel s data guids offset limit found H R.
    apply reports_summary in R. rewrite <- H in R.
    destruct (offset + limit <? found)%Z.
    + now apply loop_more.
    + now apply loop_last.
  - intros fuel data H R. apply reports_summary in R. rewrite <- H in R.
    change (0 + 10 <? 0)%Z with false in R. cbv iota in R.
    exists (page_done (url 1) [] (start_gather objs errs)). split.
    + rewrite (stage_finished (S fuel) objs errs _
                 (loop_last fuel (start_gather objs errs) [] R)).
      reflexivity.
    + repeat split.
  - intros fuel d1 d2 d3 g1 g2 g3 H1 R1 H2 R2 H3 R3 L1 L2 L3.
    apply reports_summary in R1, R2, R3.
    rewrite <- H1 in R1. rewrite <- H2 in R2. rewrite <- H3 in R3.
    change (0 + 10 <? 25)%Z with true in R1.
    change (10 + 10 <? 25)%Z with true in R2.
    change (20 + 10 <? 25)%Z with false in R3. cbv iota in R1, R2, R3.
    set (s0 := start_gather objs errs).
    assert (Sv : serves_more http_get_json url (page s0) [g1; g2])
      by (simpl; auto).
    destruct (pages_done_fields url [g1; g2] s0) as (A & B & C & D & E).
    set (s2 := pages_done url [g1; g2] s0) in *.
    assert (L : loop (3 + fuel) s0 = (Ok Finished, page_done (url 3) g3 s2)).
    { change (3 + fuel) with (length [g1; g2] + S fuel).
      rewrite (loop_pages [g1; g2] s0 (S fuel) Sv). fold s2.
      replace (url 3) with (url (page s2)) by (now rewrite E).
      apply loop_last. rewrite E. exact R3. }
    destruct (page_done_fields (url 3) g3 s2) as (A' & B' & C' & D' & _).
    exists (harvest_obj_ids (page_done (url 3) g3 s2)), (page_done (url 3) g3 s2).
    split; [now apply stage_finished|].
    rewrite A', B', C', D', A, B, C, D.
    cbn [s0 start_gather objects harvest_obj_ids gather_errors requested page
         concat length pages_from map app].
    rewrite app_nil_r.
    assert (Len : length (objs ++ number_from (length objs) (g1 ++ g2))%list =
                  length objs + 20)
      by (rewrite length_app, number_from_length, length_app, L1, L2; reflexivity).
    rewrite Len.
    assert (N : number_from (length objs) (g1 ++ g2 ++ g3) =
      (number_from (length objs) (g1 ++ g2)
       ++ number_from (length objs + 20) g3)%list)
      by (rewrite (app_assoc g1 g2 g3), number_from_app, length_app, L1, L2;
          reflexivity).
    rewrite N, map_app, <- app_assoc.
    repeat split.
    rewrite length_app, !length_map, !number_from_length, length_app, L1, L2, L3.
    reflexivity.
Qed.

Lemma loop_spins fuel : forall s,
  (1 <= page s)%Z ->
  (forall p, (1 <= p)%Z ->
     exists data guids offset limit found,
       http_get_json (url p) = Ok data /\
       reports data guids offset limit found /\
       (offset + limit < found)%Z) ->
  exists s',
    loop fuel s = (Ok StillGathering, s') /\
    gather_errors s' = gather_errors s /\
    requested s' = (requested s ++ map url (pages_from (page s) fuel))%list.
Proof.
  induction fuel as [|fuel IH]; intros s P More.
  - exists s. simpl. rewrite app_nil_r. auto.
  - destruct (More (page s) P) as (data & guids & offset & limit & found & H & R & Lt).
    apply reports_summary in R. rewrite <- H in R.
    apply Z.ltb_lt in Lt. rewrite Lt in R.
    rewrite (loop_more fuel s guids R).
    destruct (page_done_fields (url (page s)) guids s) as (_ & _ & C & D & _ & E).
    destruct (IH (page_done (url (page s)) guids s)) as (s' & L & Er & Rq);
      [lia | exact More |].
    exists s'. split; [exact L|]. rewrite Er, Rq, C, D, E.
    cbn [pages_from map]. rewrite <- app_assoc. auto.
Qed.

(** C4, as amended. The loop has no forward-progress check: when
    every page's body reports [offset + limit < found] -- as it does
    when the reported offset and limit never advance and stay below
    [found] -- the stage asks for page 1, 2, 3, ... for as long as it is
    run, saves no gather error and does not return. *)
Theorem gather_has_no_progress_guard
  (objs : list HarvestObject) (errs : list GatherError) (fuel : nat) :
  (forall p, (1 <= p)%Z ->
     exists data guids offset limit found,
       http_get_json (url p) = Ok data /\
       reports data guids offset limit found /\
       (offset + limit < found)%Z) ->
  exists s,
    stage fuel objs errs = (NotYet, s) /\
    gather_errors s = errs /\
    requested s = map url (pages_from 1 fuel).
Proof.
  intros More.
  destruct (loop_spins fuel (start_gather objs errs)) as (s & L & Er & Rq);
    [simpl; lia | exact More |].
  exists s. unfold gather_stage. rewrite L. auto.
Qed.

(** C9. When the pages before it were gathered and the answer to the
    next page brings up an exception (the request or the decoding
    fails, or a field is missing), the stage returns [None] without
    asking for another page, saves exactly one gather error, which
    carries the URL of that page and the exception, and the harvest
    objects saved so far -- those of the earlier pages and of the rows
    of the failing page that came before the exception -- stay in the
    table. *)
Theorem gather_failure_is_reported_once
  (objs : list HarvestObject) (errs : list GatherError)
  (pages : list (list value)) (partial : list value) (e : exn) (fuel : nat) :
  serves_more http_get_json url 1 pages ->
  page_summary (http_get_json (url (1 + Z.of_nat (length pages)))) =
    (partial, PageFails e) ->
  exists s,
    stage (length pages + S fuel) objs errs = (Returns None, s) /\
    gather_errors s =
      (errs ++ [{| ge_url := Some (url (1 + Z.of_nat (length pages)));
                   ge_cause := e |}])%list /\
    objects s =
      (objs ++ number_from (length objs) (concat pages ++ partial))%list /\
    requested s =
      (map url (pages_from 1 (length pages))
       ++ [url (1 + Z.of_nat (length pages))])%list.
Proof.
  intros Sv F. set (s0 := start_gather objs errs).
  destruct (pages_done_fields url pages s0) as (A & _ & C & D & E).
  set (s2 := pages_done url pages s0) in *.
  change (page s0) with 1%Z in E. rewrite <- E in F.
  destruct (loop_fails fuel s2 partial e F) as (s' & L & St).
  exists (save_gather_error e s').
  unfold gather_stage. fold s0. rewrite (loop_pages pages s0 (S fuel) Sv).
  fold s2. rewrite L. split; [reflexivity|].
  unfold store_of in St. inversion St as [[O G Rq U]]. clear St.
  cbn [save_gather_error gather_errors objects requested].
  rewrite O, G, Rq, U.
  rewrite save_all_objects.
  destruct (save_all_rest partial
    (log_request (url (page s2)) (set_api_url (url (page s2)) s2)))
    as (G' & Rq' & U' & _).
  rewrite G', Rq', U'. cbn [log_request set_api_url objects gather_errors
    requested api_url].
  rewrite A, C, D, E. cbn [s0 start_gather objects gather_errors requested page].
  rewrite number_from_app, length_app, number_from_length, <- app_assoc.
  repeat split.
Qed.

End GatherProperties.

(** ** The example servers *)

Lemma example_config_loaded : _set_config no_json_loads "" = Ok example_config.
Proof. reflexivity. Qed.

Lemma example_url_built p :
  search_url example_config (rstrip_slash "http://nada.example/") p =
  Ok (example_url p).
Proof. reflexivity. Qed.

Lemma empty_body_reports : reports (example_body [] 0 10 0) [] 0 10 0.
Proof. exists []. repeat split. Qed.

Lemma page_1_reports :
  reports (example_body (example_rows 1 10) 0 10 25) (example_guids 1 10) 0 10 25.
Proof. exists (example_rows 1 10). repeat split. Qed.

Lemma page_2_reports :
  reports (example_body (example_rows 11 10) 10 10 25) (example_guids 11 10) 10 10 25.
Proof. exists (example_rows 11 10). repeat split. Qed.

Lemma page_3_reports :
  reports (example_body (example_rows 21 5) 20 10 25) (example_guids 21 5) 20 10 25.
Proof. exists (example_rows 21 5). repeat split. Qed.

Example gather_25_run :
  fst (gather_stage no_json_loads server_25 "" "http://nada.example/" 3 [] []) =
  Returns (Some (seq 0 25)).
Proof. reflexivity. Qed.

Lemma gather_pages_while_offset_plus_limit_below_found_witness :
  (exists s,
     gather_stage no_json_loads server_empty "" "http://nada.example/" 1 [] [] =
       (Returns (Some []), s) /\
     requested s = [example_url 1] /\
     objects s = [] /\
     gather_errors s = []) /\
  (exists ids s,
     gather_stage no_json_loads server_25 "" "http://nada.example/" 3 [] [] =
       (Returns (Some ids), s) /\
     requested s = [example_url 1; example_url 2; example_url 3] /\
     length ids = 25 /\
     ids = map ho_id (number_from 0
             (example_guids 1 10 ++ example_guids 11 10 ++ example_guids 21 5)) /\
     objects s = number_from 0
             (example_guids 1 10 ++ example_guids 11 10 ++ example_guids 21 5) /\
     gather_errors s = []).
Proof.
  split.
  - apply (proj1 (proj2 (proj2
      (gather_pages_while_offset_plus_limit_below_found
         no_json_loads server_empty "" "http://nada.example/"
         example_config example_url example_config_loaded example_url_built
         [] []))) 0 (example_body [] 0 10 0)).
    + reflexivity.
    + exact empty_body_reports.
  - apply (proj2 (proj2 (proj2
      (gather_pages_while_offset_plus_limit_below_found
         no_json_loads server_25 "" "http://nada.example/"
         example_config example_url example_config_loaded example_url_built
         [] []))) 0
      (example_body (example_rows 1 10) 0 10 25)
      (example_body (example_rows 11 10) 10 10 25)
      (example_body (example_rows 21 5) 20 10 25)
      (example_guids 1 10) (example_guids 11 10) (example_guids 21 5)).
    + reflexivity.
    + exact page_1_reports.
    + reflexivity.
    + exact page_2_reports.
    + reflexivity.
    + exact page_3_reports.
    + reflexivity.
    + reflexivity.
    + reflexivity.
Defined.

Lemma stuck_server_asks_for_more p :
  (1 <= p)%Z ->
  exists data guids offset limit found,
    server_stuck (example_url p) = Ok data /\
    reports data guids offset limit found /\
    (offset + limit < found)%Z.
Proof.
  intros _. exists (example_body (example_rows 1 10) 0 10 25), (example_guids 1 10).
  exists 0%Z, 10%Z, 25%Z. split; [reflexivity|]. split; [exact page_1_reports|].
  reflexivity.
Qed.

(** C4, as stated, fails: against a server that answers every page
    with offset 0, limit 10 and found 25, the stage saves no gather
    error and never returns; it asks for page after page. *)
Lemma gather_spins_on_stuck_server :
  gather_never_returns no_json_loads server_stuck "" "http://nada.example/"
    example_url.
Proof.
  intros fuel. unfold gather_stage.
  destruct (loop_spins no_json_loads server_stuck "" "http://nada.example/"
              example_config example_url example_config_loaded example_url_built
              fuel (start_gather [] [])) as (s & L & Er & Rq);
    [simpl; lia | exact stuck_server_asks_for_more |].
  rewrite L. simpl. auto.
Qed.

Lemma gather_has_no_progress_guard_witness :
  exists s,
    gather_stage no_json_loads server_stuck "" "http://nada.example/" 4 [] [] =
      (NotYet, s) /\
    gather_errors s = [] /\
    requested s = map example_url (pages_from 1 4).
Proof.
  apply (gather_has_no_progress_guard no_json_loads server_stuck ""
           "http://nada.example/" example_config example_url
           example_config_loaded example_url_built [] [] 4).
  exact stuck_server_asks_for_more.
Defined.

Lemma gather_failure_is_reported_once_witness :
  (exists s,
     gather_stage no_json_loads server_breaks_on_3 "" "http://nada.example/"
       (2 + 1) [] [] = (Returns None, s) /\
     gather_errors s =
       [{| ge_url := Some (example_url 3);
           ge_cause := RequestException "connection reset" |}] /\
     objects s = number_from 0
       (concat [example_guids 1 10; example_guids 11 10] ++ []) /\
     requested s =
       (map example_url (pages_from 1 2) ++ [example_url 3])%list) /\
  (exists s,
     gather_stage no_json_loads server_row_without_id "" "http://nada.example/"
       (1 + 1) [] [] = (Returns None, s) /\
     gather_errors s =
       [{| ge_url := Some (example_url 2);
           ge_cause := KeyError (VStr "id") |}] /\
     objects s = number_from 0
       (concat [example_guids 1 10] ++ example_guids 11 2) /\
     requested s =
       (map example_url (pages_from 1 1) ++ [example_url 2])%list).
Proof.
  split.
  - apply (gather_failure_is_reported_once no_json_loads server_breaks_on_3 ""
             "http://nada.example/" example_config example_url
             example_config_loaded example_url_built [] []
             [example_guids 1 10; example_guids 11 10] []
             (RequestException "connection reset") 0).
    + repeat split.
    + reflexivity.
  - apply (gather_failure_is_reported_once no_json_loads server_row_without_id ""
             "http://nada.example/" example_config example_url
             example_config_loaded example_url_built [] []
             [example_guids 1 10] (example_guids 11 2)
             (KeyError (VStr "id")) 0).
    + repeat split.
    + reflexivity.
Defined.

(** * Further properties *)

(** ** Strings and numbers *)

Lemma append_inj_left s : forall a b, s ++ a = s ++ b -> a = b.
Proof.
  induction s as [|c r IH]; simpl; intros a b H; [exact H|].
  inversion H. auto.
Qed.

Lemma to_int_not_nil z :
  Z.to_int z <> Decimal.Pos Decimal.Nil /\ Z.to_int z <> Decimal.Neg Decimal.Nil.
Proof.
  destruct z as [|p|p]; simpl; split; try discriminate;
    intros E; inversion E as [E'];
    now apply DecimalPos.Unsigned.to_uint_nonnil in E'.
Qed.

Lemma string_of_Z_inj a b : string_of_Z a = string_of_Z b -> a = b.
Proof.
  unfold string_of_Z. intros H. apply DecimalZ.to_int_inj.
  assert (I : Some (Z.to_int a) = Some (Z.to_int b)).
  { rewrite <- (NilZero.isi (Z.to_int a)), <- (NilZero.isi (Z.to_int b));
      try apply to_int_not_nil. now rewrite H. }
  now inversion I.
Qed.











(** ** Source URLs and endpoints *)

Lemma rstrip_slash_app_slash s : rstrip_slash (s ++ "/") = rstrip_slash s.
Proof.
  induction s as [|c r IH]; [reflexivity|]. simpl. now rewrite IH.
Qed.

Lemma rstrip_slash_add_slashes n s :
  rstrip_slash (add_slashes n s) = rstrip_slash s.
Proof.
  induction n as [|n IH]; [reflexivity|]. simpl.
  now rewrite rstrip_slash_app_slash.
Qed.

Lemma rstrip_slash_no_trailing_slash s :
  last_char (rstrip_slash s) <> Some "/"%char.
Proof.
  induction s as [|c r IH]; simpl; [discriminate|].
  destruct (rstrip_slash r) as [|c' r'] eqn:E.
  - destruct (Ascii.eqb c "/") eqn:C; simpl; [discriminate|].
    intros H. inversion H. subst c. discriminate C.
  - exact IH.
Qed.

Lemma add_slashes_cons n : forall c s,
  add_slashes n (String c s) = String c (add_slashes n s).
Proof.
  induction n as [|n IH]; intros c s; simpl; [reflexivity|].
  now rewrite IH.
Qed.

Lemma add_slashes_app_slash n : forall s,
  add_slashes n (s ++ "/") = add_slashes n s ++ "/".
Proof.
  induction n as [|n IH]; intros s; simpl; [reflexivity|].
  now rewrite IH.
Qed.

Lemma slash_before_slashes n :
  String "/" (add_slashes n "") = add_slashes n "" ++ "/".
Proof.
  induction n as [|n IH]; [reflexivity|]. simpl.
  rewrite <- IH. simpl. now rewrite <- IH.
Qed.

Lemma rstrip_slash_only_slashes s :
  exists n, s = add_slashes n (rstrip_slash s).
Proof.
  induction s as [|c r [n IH]]; [now exists 0|]. simpl.
  destruct (rstrip_slash r) as [|c' r'] eqn:E.
  - destruct (Ascii.eqb c "/") eqn:C.
    + apply Ascii.eqb_eq in C. subst c. exists (S n).
      rewrite IH at 1. simpl. apply slash_before_slashes.
    + exists n. rewrite add_slashes_cons. now rewrite <- IH.
  - exists n. rewrite add_slashes_cons. now rewrite <- IH.
Qed.

(** X14. [rstrip('/')] takes all the slashes at the end of the source
    URL and nothing else: what is left does not end with a slash and
    is the URL without those slashes, a URL without a final slash is
    left as it is, and source URLs that differ only in slashes at the
    end give the same search URLs, the same fetch and the same
    package. *)
Theorem trailing_slashes_do_not_matter (source_url : string) (n : nat) :
  last_char (rstrip_slash source_url) <> Some "/"%char /\
  (exists k, source_url = add_slashes k (rstrip_slash source_url)) /\
  (last_char source_url <> Some "/"%char -> rstrip_slash source_url = source_url) /\
  rstrip_slash (add_slashes n source_url) = rstrip_slash source_url /\
  (forall json_loads http_get_json source_config fuel objs errs,
     gather_stage json_loads http_get_json source_config
       (add_slashes n source_url) fuel objs errs =
     gather_stage json_loads http_get_json source_config source_url fuel objs errs) /\
  (forall json_loads http_get_text guid content source_config errors,
     fetch_stage json_loads http_get_text
       (Some {| obj_guid := guid; obj_content := content;
                obj_source_url := add_slashes n source_url;
                obj_source_config := source_config |}) errors =
     match fetch_stage json_loads http_get_text
       (Some {| obj_guid := guid; obj_content := content;
                obj_source_url := source_url;
                obj_source_config := source_config |}) errors with
     | Ok (b, Some ho, errs) =>
         Ok (b, Some {| obj_guid := obj_guid ho; obj_content := obj_content ho;
                        obj_source_url := add_slashes n source_url;
                        obj_source_config := obj_source_config ho |}, errs)
     | other => other
     end) /\
  (forall repr munge_tag ckan_config config guid raw,
     package_dict repr munge_tag ckan_config config
       (add_slashes n source_url) guid raw =
     package_dict repr munge_tag ckan_config config source_url guid raw).
Proof.
  split; [apply rstrip_slash_no_trailing_slash|].
  split; [apply rstrip_slash_only_slashes|].
  split.
  { intros L. destruct (rstrip_slash_only_slashes source_url) as [k E].
    destruct k as [|k]; [now symmetry|].
    exfalso. apply L. rewrite E. simpl.
    generalize (add_slashes k (rstrip_slash source_url)). clear.
    intros s. induction s as [|c r IH]; [reflexivity|].
    simpl. destruct (r ++ "/") eqn:A; [now destruct r | exact IH]. }
  split; [apply rstrip_slash_add_slashes|].
  split; [|split].
  - intros. unfold gather_stage.
    assert (L : forall s,
      gather_loop json_loads http_get_json source_config
        (add_slashes n source_url) fuel s =
      gather_loop json_loads http_get_json source_config source_url fuel s).
    { induction fuel as [|fuel IH]; intros s; [reflexivity|].
      simpl. unfold mbind, gather_page.
      rewrite rstrip_slash_add_slashes.
      match goal with
      | |- match ?m with _ => _ end = _ => destruct m as [[[] |] ?]
      end; auto. }
    now rewrite L.
  - intros. unfold fetch_stage. cbn [obj_source_url obj_guid obj_source_config].
    rewrite rstrip_slash_add_slashes.
    destruct (_set_config json_loads source_config); [|reflexivity].
    cbn [bind]. destruct (http_get_text _); reflexivity.
  - intros. unfold package_dict. now rewrite rstrip_slash_add_slashes.
Qed.

Lemma string_app_assoc a : forall b c, (a ++ b) ++ c = a ++ (b ++ c).
Proof.
  induction a as [|x r IH]; intros b c; simpl; [reflexivity|].
  now rewrite IH.
Qed.

(** The page only ever ends the search URL. *)
Lemma search_url_by_page config base_url :
  (exists prefix, forall p,
     search_url config base_url p = Ok (prefix ++ string_of_Z p)) \/
  (exists e, forall p, search_url config base_url p = Raise e).
Proof.
  assert (P : exists prefix, forall p,
    (path <- _get_search_api (VStr "public_use") p ;; Ok (base_url ++ path)) =
    Ok (prefix ++ string_of_Z p)).
  { exists (base_url
            ++ "/index.php/api/v2/catalog/search/format/json/?dtype[]=2&page=").
    intros p. rewrite string_app_assoc. reflexivity. }
  destruct P as [pub P].
  unfold search_url.
  destruct (subscript config "access_type") as [a|e] eqn:S; cbn [bind].
  - destruct a as [| b | z | s | l | l | d];
      try (left; exists pub; intros p; rewrite <- P;
           unfold _get_search_api, access_code; cbn [hashable];
           reflexivity).
    + left.
      exists (base_url ++ "/index.php/api/v2/catalog/search/format/json?page=").
      intros p. rewrite string_app_assoc. reflexivity.
    + unfold _get_search_api, access_code. cbn [hashable]. unfold getitem.
      destruct (dict_get s ACCESS_TYPES) as [c|].
      * left.
        exists (base_url ++ "/index.php/api/v2/catalog/search/format/json/"
                ++ "?dtype[]=" ++ code_text c ++ "&page=").
        intros p. rewrite !string_app_assoc. reflexivity.
      * left. exists pub. intros p. now rewrite <- P.
    + right. exists TypeError. reflexivity.
    + unfold _get_search_api, access_code.
      destruct (hashable (VTuple l)).
      * left. exists pub. intros p. now rewrite <- P.
      * right. exists TypeError. reflexivity.
    + right. exists TypeError. reflexivity.
  - destruct e; try (right; eexists; reflexivity);
      left; exists pub; intros p; now rewrite <- P.
Qed.

Lemma search_url_inj config base_url p q u :
  search_url config base_url p = Ok u ->
  search_url config base_url q = Ok u -> p = q.
Proof.
  destruct (search_url_by_page config base_url) as [[prefix H] | [e H]];
    rewrite !H; intros A B; [|discriminate].
  inversion A as [A']. inversion B as [B']. subst u.
  apply append_inj_left in B'. symmetry. now apply string_of_Z_inj.
Qed.

(** X15. Two pages never share a search URL, and two identifiers
    never share a document URL or a catalog page. *)
Theorem endpoints_are_injective (config : value) (base_url : string) :
  (forall p q u,
     search_url config base_url p = Ok u ->
     search_url config base_url q = Ok u -> p = q) /\
  (forall a b,
     base_url ++ _get_ddi_api a = base_url ++ _get_ddi_api b -> a = b) /\
  (forall a b,
     base_url ++ _get_catalog_path a = base_url ++ _get_catalog_path b -> a = b).
Proof.
  split; [intros p q u; apply search_url_inj|].
  split; intros a b H; apply append_inj_left in H;
    now apply (append_inj_left _ _ _ H).
Qed.

(** ** More on the gather stage *)

Lemma pages_from_snoc n : forall p,
  pages_from p (S n) = (pages_from p n ++ [(p + Z.of_nat n)%Z])%list.
Proof.
  induction n as [|n IH]; intros p.
  - simpl. now rewrite Z.add_0_r.
  - change (pages_from p (S (S n))) with (p :: pages_from (p + 1) (S n)).
    rewrite IH. rewrite Nat2Z.inj_succ.
    replace (p + 1 + Z.of_nat n)%Z with (p + Z.succ (Z.of_nat n))%Z by lia.
    reflexivity.
Qed.

Lemma pages_from_lower n : forall p x, In x (pages_from p n) -> (p <= x)%Z.
Proof.
  induction n as [|n IH]; intros p x; simpl; [tauto|].
  intros [E|I]; [lia|]. apply IH in I. lia.
Qed.

Lemma pages_from_NoDup n : forall p, NoDup (pages_from p n).
Proof.
  induction n as [|n IH]; intros p; simpl; constructor; [|apply IH].
  intros I. apply pages_from_lower in I. lia.
Qed.

Lemma NoDup_map_injective {A B} (f : A -> B) l :
  (forall x y, f x = f y -> x = y) -> NoDup l -> NoDup (map f l).
Proof.
  intros Inj N. induction N as [|x l X N IH]; simpl; constructor; [|exact IH].
  intros I. apply in_map_iff in I. destruct I as (y & E & I).
  apply Inj in E. now subst y.
Qed.

Section GatherRuns.

Variables json_loads http_get_json : string -> result value.
Variables source_config source_url : string.
Variable config : value.
Variable url : Z -> string.

Hypothesis config_loaded : _set_config json_loads source_config = Ok config.
Hypothesis url_built :
  forall p, search_url config (rstrip_slash source_url) p = Ok (url p).

Local Notation "'loop'" :=
  (gather_loop json_loads http_get_json source_config source_url).
Local Notation "'stage'" :=
  (gather_stage json_loads http_get_json source_config source_url).

Lemma url_inj p q : url p = url q -> p = q.
Proof.
  intros E. apply (search_url_inj config (rstrip_slash source_url) p q (url p)).
  - apply url_built.
  - rewrite E. apply url_built.
Qed.

(** Whatever the server answers, a run asks for consecutive pages. *)
Lemma loop_requests fuel : forall s r s',
  loop fuel s = (r, s') ->
  exists k, k <= fuel /\
    requested s' = (requested s ++ map url (pages_from (page s) k))%list /\
    gather_errors s' = gather_errors s.
Proof.
  induction fuel as [|fuel IH]; intros s r s' L.
  - simpl in L. inversion L; subst. exists 0. simpl.
    rewrite app_nil_r. auto.
  - pose proof (gather_page_summary json_loads http_get_json source_config
                  source_url config url config_loaded url_built s) as G.
    destruct (page_summary (http_get_json (url (page s)))) as [guids [| |e]] eqn:P.
    + rewrite (loop_more json_loads http_get_json source_config source_url
                 config url config_loaded url_built fuel s guids P) in L.
      apply IH in L. destruct L as (k & Le & Rq & Er).
      destruct (page_done_fields (url (page s)) guids s)
        as (_ & _ & C & D & _ & E).
      exists (S k). split; [lia|]. rewrite Rq, Er, C, D, E. simpl.
      now rewrite <- app_assoc.
    + rewrite (loop_last json_loads http_get_json source_config source_url
                 config url config_loaded url_built fuel s guids P) in L.
      inversion L; subst.
      destruct (page_done_fields (url (page s)) guids s)
        as (_ & _ & C & D & _ & E).
      exists 1. split; [lia|]. rewrite C, D. auto.
    + destruct (loop_fails json_loads http_get_json source_config source_url
                  config url config_loaded url_built fuel s guids e P)
        as (s2 & L2 & St).
      rewrite L2 in L. inversion L; subst.
      unfold store_of in St. inversion St as [[O G' Rq U]].
      destruct (save_all_rest guids
        (log_request (url (page s)) (set_api_url (url (page s)) s)))
        as (A & B & _).
      exists 1. split; [lia|]. rewrite Rq, G', A, B. auto.
Qed.

(** X4. Whatever the server answers, a run of the gather stage asks
    for the pages 1, 2, ..., k in this order, for some k, and so never
    asks for the same URL twice. *)
Theorem gather_never_repeats_a_request
  (fuel : nat) (objs : list HarvestObject) (errs : list GatherError) :
  (exists k, k <= fuel /\
     requested (snd (stage fuel objs errs)) = map url (pages_from 1 k)) /\
  NoDup (requested (snd (stage fuel objs errs))).
Proof.
  assert (R : exists k, k <= fuel /\
     requested (snd (stage fuel objs errs)) = map url (pages_from 1 k)).
  { unfold gather_stage.
    destruct (loop fuel (start_gather objs errs)) as [r s'] eqn:L.
    apply loop_requests in L. destruct L as (k & Le & Rq & _).
    exists k. split; [exact Le|].
    destruct r as [[|]|e]; exact Rq. }
  split; [exact R|]. destruct R as (k & _ & ->).
  apply NoDup_map_injective; [exact url_inj | apply pages_from_NoDup].
Qed.

(** X5. When the server answers the pages 1, ..., k with rows and
    asks for more each time, and answers page k+1 with the last rows,
    the stage returns the ids of exactly the harvest objects it saved,
    one per row and in the order of the rows, after exactly those k+1
    requests; it saves no gather error and leaves the objects that were
    in the table alone. *)
Theorem gather_returns_the_ids_of_all_rows
  (objs : list HarvestObject) (errs : list GatherError)
  (pages : list (list value)) (last_guids : list value) (fuel : nat) :
  serves_more http_get_json url 1 pages ->
  page_summary (http_get_json (url (1 + Z.of_nat (length pages)))) =
    (last_guids, PageLast) ->
  exists ids created s,
    stage (length pages + S fuel) objs errs = (Returns (Some ids), s) /\
    objects s = (objs ++ created)%list /\
    ids = map ho_id created /\
    map ho_guid created = (concat pages ++ last_guids)%list /\
    length ids = length (concat pages) + length last_guids /\
    gather_errors s = errs /\
    requested s = map url (pages_from 1 (S (length pages))).
Proof.
  intros Sv F. set (s0 := start_gather objs errs).
  destruct (pages_done_fields url pages s0) as (A & B & C & D & E).
  set (s2 := pages_done url pages s0) in *.
  change (page s0) with 1%Z in E. rewrite <- E in F.
  pose proof (loop_last json_loads http_get_json source_config source_url
                config url config_loaded url_built fuel s2 last_guids F) as L.
  destruct (page_done_fields (url (page s2)) last_guids s2)
    as (A' & B' & C' & D' & _).
  exists (harvest_obj_ids (page_done (url (page s2)) last_guids s2)).
  exists (number_from (length objs) (concat pages ++ last_guids)).
  exists (page_done (url (page s2)) last_guids s2).
  split.
  { apply stage_finished. fold s0.
    rewrite (loop_pages json_loads http_get_json source_config source_url
               config url config_loaded url_built pages s0 (S fuel) Sv).
    exact L. }
  rewrite A', B', C', D', A, B, C, D, E.
  cbn [s0 start_gather objects harvest_obj_ids gather_errors requested page app].
  assert (Len : length (objs ++ number_from (length objs) (concat pages))%list =
                length objs + length (concat pages))
    by (rewrite length_app, number_from_length; reflexivity).
  rewrite Len, (number_from_app (concat pages)), map_app, <- app_assoc.
  repeat split.
  - now rewrite map_app, !number_from_guids.
  - now rewrite length_app, !length_map, !number_from_length.
  - now rewrite pages_from_snoc, map_app.
Qed.

End GatherRuns.

Lemma gather_never_repeats_a_request_witness :
  (exists k, k <= 5 /\
     requested
       (snd (gather_stage no_json_loads server_row_without_id ""
               "http://nada.example/" 5 [] [])) =
     map example_url (pages_from 1 k)) /\
  NoDup
    (requested
       (snd (gather_stage no_json_loads server_row_without_id ""
               "http://nada.example/" 5 [] []))).
Proof.
  apply (gather_never_repeats_a_request no_json_loads server_row_without_id ""
           "http://nada.example/" example_config example_url
           example_config_loaded example_url_built 5 [] []).
Defined.

Lemma gather_returns_the_ids_of_all_rows_witness :
  exists ids created s,
    gather_stage no_json_loads server_25 "" "http://nada.example/"
      (2 + 1) [] [] = (Returns (Some ids), s) /\
    objects s = ([] ++ created)%list /\
    ids = map ho_id created /\
    map ho_guid created =
      (concat [example_guids 1 10; example_guids 11 10]
       ++ example_guids 21 5)%list /\
    length ids =
      length (concat [example_guids 1 10; example_guids 11 10])
      + length (example_guids 21 5) /\
    gather_errors s = [] /\
    requested s = map example_url (pages_from 1 3).
Proof.
  apply (gather_returns_the_ids_of_all_rows no_json_loads server_25 ""
           "http://nada.example/" example_config example_url
           example_config_loaded example_url_built [] []
           [example_guids 1 10; example_guids 11 10] (example_guids 21 5) 0).
  - repeat split.
  - reflexivity.
Defined.

(** X2. When the configuration cannot be loaded, or the search URL of
    page 1 cannot be built from it (an access type that cannot be a
    dict key), the stage returns [None] without a single request and
    without a harvest object, and the one gather error it saves carries
    no URL: [api_url] is still [None]. *)
Theorem gather_fails_before_the_first_request
  (json_loads http_get_json : string -> result value)
  (source_config source_url : string) (e : exn) (fuel : nat)
  (objs : list HarvestObject) (errs : list GatherError) :
  _set_config json_loads source_config = Raise e \/
  (exists config,
     _set_config json_loads source_config = Ok config /\
     search_url config (rstrip_slash source_url) 1 = Raise e) ->
  gather_stage json_loads http_get_json source_config source_url (S fuel)
    objs errs =
  (Returns None,
   {| objects := objs;
      gather_errors := (errs ++ [{| ge_url := None; ge_cause := e |}])%list;
      requested := [];
      api_url := None;
      page := 1;
      harvest_obj_ids := [] |}).
Proof.
  intros [C | (config & C & U)];
    unfold gather_stage, gather_loop, gather_page, mbind, lift;
    rewrite C; cbn [start_gather page]; [reflexivity|].
  rewrite U. reflexivity.
Qed.

Lemma gather_fails_before_the_first_request_witness :
  gather_stage loads_list_access_type server_25 "config" "http://nada.example/"
    1 [] [] =
  (Returns None,
   {| objects := [];
      gather_errors := ([] ++ [{| ge_url := None; ge_cause := TypeError |}])%list;
      requested := [];
      api_url := None;
      page := 1;
      harvest_obj_ids := [] |}).
Proof.
  apply (gather_fails_before_the_first_request loads_list_access_type
           server_25 "config" "http://nada.example/" TypeError 0 [] []).
  right. exists (VDict [("access_type", VList [VStr "public_use"]);
                        ("user", VStr "harvest")]).
  split; reflexivity.
Defined.

(** ** Configuration *)

(** X1. For a configuration text that holds a JSON object,
    [_set_config] keeps every key of it, a [user] that is there
    included, and adds [user] = [harvest] only when there is none; an
    empty text gives the configuration with just that user, without
    [json.loads] being asked. *)
Theorem set_config_only_adds_a_missing_user
  (json_loads : string -> result value) (config_str : string) (d : dict) :
  (config_str = "" /\ d = []) \/
  (config_str <> "" /\ json_loads config_str = Ok (VDict d)) ->
  exists d',
    _set_config json_loads config_str = Ok (VDict d') /\
    dict_get "user" d' =
      Some (match dict_get "user" d with
            | Some user => user
            | None => VStr "harvest"
            end) /\
    (forall k, k <> "user" -> dict_get k d' = dict_get k d).
Proof.
  intros H.
  assert (L : (if String.eqb config_str "" then Ok (VDict [])
               else json_loads config_str) = Ok (VDict d)).
  { destruct H as [[-> ->] | [N J]]; [reflexivity|].
    apply String.eqb_neq in N. now rewrite N. }
  exists (if dict_mem "user" d then d else dict_set "user" (VStr "harvest") d).
  split; [|split].
  - unfold _set_config. rewrite L. cbn [bind contains].
    destruct (dict_mem "user" d); reflexivity.
  - unfold dict_mem. destruct (dict_get "user" d) eqn:U; [exact U|].
    apply dict_get_set_same.
  - intros k N. destruct (dict_mem "user" d); [reflexivity|].
    now apply dict_get_set_other.
Qed.

Lemma set_config_only_adds_a_missing_user_witness :
  exists d',
    _set_config loads_user_and_license "config" = Ok (VDict d') /\
    dict_get "user" d' =
      Some (match dict_get "user"
                    [("user", VStr "admin"); ("license", VStr "cc-by")] with
            | Some user => user
            | None => VStr "harvest"
            end) /\
    (forall k, k <> "user" ->
       dict_get k d' =
       dict_get k [("user", VStr "admin"); ("license", VStr "cc-by")]).
Proof.
  apply (set_config_only_adds_a_missing_user loads_user_and_license "config"
           [("user", VStr "admin"); ("license", VStr "cc-by")]).
  right. split; [discriminate | reflexivity].
Defined.

(** X3. For a configuration that is a JSON object whose access type is
    missing, [null] or any string, the search URL of every page gets
    built: with no access type it is the URL for [public_use], with
    [null] the one without a filter, with a key of [ACCESS_TYPES] the
    one for its code, and with any other string the URL for
    [public_use] again. *)
Theorem search_url_is_built_for_string_access_types
  (d : dict) (base_url : string) (page : Z) :
  dict_get "access_type" d = None \/
  dict_get "access_type" d = Some VNone \/
  (exists s, dict_get "access_type" d = Some (VStr s)) ->
  exists path,
    search_url (VDict d) base_url page = Ok (base_url ++ path) /\
    (dict_get "access_type" d = None ->
     _get_search_api (VStr "public_use") page = Ok path) /\
    (dict_get "access_type" d = Some VNone ->
     _get_search_api VNone page = Ok path) /\
    (forall s, dict_get "access_type" d = Some (VStr s) ->
     (In s (dict_keys ACCESS_TYPES) -> _get_search_api (VStr s) page = Ok path) /\
     (~ In s (dict_keys ACCESS_TYPES) ->
      _get_search_api (VStr "public_use") page = Ok path)).
Proof.
  intros [N | [N | [s S]]].
  - eexists. split; [|split; [|split]].
    + unfold search_url, subscript, getitem. rewrite N. cbn [bind].
      rewrite search_api_public_use. reflexivity.
    + intros _. apply search_api_public_use.
    + rewrite N. discriminate.
    + intros s S. rewrite N in S. discriminate.
  - eexists. split; [|split; [|split]].
    + unfold search_url, subscript, getitem. rewrite N. reflexivity.
    + rewrite N. discriminate.
    + reflexivity.
    + intros s S. rewrite N in S. discriminate.
  - destruct (in_dec string_dec s (dict_keys ACCESS_TYPES)) as [I | I].
    + assert (G : exists c, dict_get s ACCESS_TYPES = Some c).
      { destruct (dict_get s ACCESS_TYPES) eqn:G; [eauto|].
        apply dict_get_None_not_key in G. contradiction. }
      destruct G as [c G].
      assert (R : _get_search_api (VStr s) page =
        Ok ("/index.php/api/v2/catalog/search/format/json/" ++
            "?dtype[]=" ++ code_text c ++ "&page=" ++ string_of_Z page)).
      { unfold _get_search_api, access_code. cbn [hashable].
        unfold getitem. now rewrite G. }
      eexists. split; [|split; [|split]].
      * unfold search_url, subscript, getitem. rewrite S.
        cbv beta iota delta [bind]. rewrite R. reflexivity.
      * rewrite S. discriminate.
      * rewrite S. discriminate.
      * intros s' S'. rewrite S in S'. inversion S'. subst s'.
        split; [intros _; exact R | contradiction].
    + assert (R : _get_search_api (VStr s) page =
                  Raise (AccessTypeNotAvailableError (VStr s))).
      { unfold _get_search_api, access_code. cbn [hashable].
        now rewrite not_a_key_no_code. }
      eexists. split; [|split; [|split]].
      * unfold search_url, subscript, getitem. rewrite S.
        cbv beta iota delta [bind]. rewrite R, search_api_public_use.
        reflexivity.
      * rewrite S. discriminate.
      * rewrite S. discriminate.
      * intros s' S'. rewrite S in S'. inversion S'. subst s'.
        split; [contradiction | intros _; apply search_api_public_use].
Qed.

Lemma search_url_is_built_for_string_access_types_witness :
  exists path,
    search_url (VDict [("user", VStr "harvest")]) "http://nada.example" 7 =
      Ok ("http://nada.example" ++ path) /\
    (dict_get "access_type" [("user", VStr "harvest")] = None ->
     _get_search_api (VStr "public_use") 7 = Ok path) /\
    (dict_get "access_type" [("user", VStr "harvest")] = Some VNone ->
     _get_search_api VNone 7 = Ok path) /\
    (forall s, dict_get "access_type" [("user", VStr "harvest")] = Some (VStr s) ->
     (In s (dict_keys ACCESS_TYPES) -> _get_search_api (VStr s) 7 = Ok path) /\
     (~ In s (dict_keys ACCESS_TYPES) ->
      _get_search_api (VStr "public_use") 7 = Ok path)).
Proof.
  apply (search_url_is_built_for_string_access_types
           [("user", VStr "harvest")] "http://nada.example" 7).
  left. reflexivity.
Defined.

(** ** More on reclassification *)

Lemma convert_loop_not_list keys : forall d keys_to_delete x,
  dict_get "extras" d = Some x ->
  (forall l, x <> VList l) ->
  convert_loop keys d keys_to_delete =
  if forallb is_default_attribute keys then Ok (d, keys_to_delete)
  else Raise AttributeError.
Proof.
  induction keys as [|key rest IH]; intros d ktd x He Nl; [reflexivity|].
  simpl. destruct (is_default_attribute key); simpl.
  - now apply (IH d ktd x).
  - unfold getitem. rewrite He. cbn [bind].
    destruct x; try reflexivity. now destruct (Nl l).
Qed.

Lemma all_recognised_keys d :
  forallb is_default_attribute (dict_keys d) = true <-> unrecognised d = [].
Proof.
  unfold unrecognised, dict_keys. induction d as [|[k v] r IH]; simpl.
  - tauto.
  - destruct (is_default_attribute k); simpl; [exact IH|].
    split; discriminate.
Qed.

Lemma recognised_all d : unrecognised d = [] -> recognised d = d.
Proof.
  unfold unrecognised, recognised. induction d as [|[k v] r IH]; simpl.
  - reflexivity.
  - destruct (is_default_attribute k); simpl; [|discriminate].
    intros H. now rewrite IH.
Qed.

Lemma unrecognised_recognised d : unrecognised (recognised d) = [].
Proof.
  unfold unrecognised, recognised. induction d as [|[k v] r IH]; simpl.
  - reflexivity.
  - destruct (is_default_attribute k) eqn:D; simpl; [|exact IH].
    now rewrite D.
Qed.

Lemma recognised_keys k d :
  In k (dict_keys (recognised d)) -> is_default_attribute k = true.
Proof.
  unfold dict_keys, recognised. intros I. apply in_map_iff in I.
  destruct I as ([k' v] & E & I). apply filter_In in I. simpl in *.
  subst k'. tauto.
Qed.

(** X7. When the parsed dict holds under [extras] something that is
    not a list, [_convert_to_extras] returns the dict as it is if all
    its keys are recognised attributes, and raises [AttributeError] --
    there is nothing to append to -- as soon as one key is not. *)
Theorem convert_to_extras_needs_a_list (raw : dict) (x : value) :
  dict_get "extras" raw = Some x ->
  (forall l, x <> VList l) ->
  (unrecognised raw = [] -> _convert_to_extras raw = Ok raw) /\
  (unrecognised raw <> [] -> _convert_to_extras raw = Raise AttributeError).
Proof.
  intros He Nl.
  assert (C : _convert_to_extras raw =
    (r <- (if forallb is_default_attribute (dict_keys raw) then Ok (raw, [])
           else Raise AttributeError) ;;
     Ok (delete_keys (snd r) (fst r)))).
  { unfold _convert_to_extras, dict_mem. rewrite He. cbn [negb].
    now rewrite (convert_loop_not_list _ raw [] x He Nl). }
  rewrite C. split; intros U.
  - apply all_recognised_keys in U. now rewrite U.
  - destruct (forallb is_default_attribute (dict_keys raw)) eqn:F;
      [|reflexivity].
    apply all_recognised_keys in F. contradiction.
Qed.

Lemma convert_to_extras_needs_a_list_witness :
  (unrecognised [("extras", VStr "none"); ("survey", VStr "census")] = [] ->
   _convert_to_extras [("extras", VStr "none"); ("survey", VStr "census")] =
     Ok [("extras", VStr "none"); ("survey", VStr "census")]) /\
  (unrecognised [("extras", VStr "none"); ("survey", VStr "census")] <> [] ->
   _convert_to_extras [("extras", VStr "none"); ("survey", VStr "census")] =
     Raise AttributeError).
Proof.
  apply (convert_to_extras_needs_a_list
           [("extras", VStr "none"); ("survey", VStr "census")] (VStr "none")).
  - reflexivity.
  - discriminate.
Defined.

(** What a successful [_convert_to_extras] returns, whatever was under
    [extras]: the recognised items of the dict, with some value under
    [extras]. *)
Lemma convert_inv raw pkg :
  wf_dict raw ->
  _convert_to_extras raw = Ok pkg ->
  exists extras, pkg = recognised (dict_set "extras" extras raw).
Proof.
  intros W C. destruct (dict_get "extras" raw) as [x|] eqn:He.
  - destruct x as [| b | z | s | l | l | d];
      try (match goal with
           | He : dict_get "extras" raw = Some ?x |- _ =>
               destruct (convert_to_extras_needs_a_list raw x He) as [A B];
               [discriminate|];
               destruct (unrecognised raw) eqn:U;
               [ rewrite A in C by reflexivity; inversion C; subst pkg;
                 exists x; rewrite dict_set_same_value by exact He;
                 symmetry; now apply recognised_all
               | rewrite B in C by discriminate; discriminate C ]
           end).
    rewrite (convert_list_extras raw l W He) in C. inversion C. eauto.
  - rewrite (convert_no_extras raw W He) in C. inversion C. eauto.
Qed.

(** X8. Whatever [_convert_to_extras] returns has [extras] and only
    recognised attributes at the top level, and is left as it is when
    it is converted once more. *)
Theorem convert_to_extras_is_idempotent (raw pkg : dict) :
  wf_dict raw ->
  _convert_to_extras raw = Ok pkg ->
  _convert_to_extras pkg = Ok pkg /\
  dict_mem "extras" pkg = true /\
  (forall k, In k (dict_keys pkg) -> In k DEFAULT_ATTRIBUTES).
Proof.
  intros W C. destruct (convert_inv raw pkg W C) as [x E].
  assert (Wp : wf_dict pkg)
    by (subst pkg; apply wf_dict_filter; now apply wf_dict_set).
  assert (Up : unrecognised pkg = [])
    by (subst pkg; apply unrecognised_recognised).
  assert (Gp : dict_get "extras" pkg = Some x).
  { subst pkg. rewrite dict_get_recognised. simpl. apply dict_get_set_same. }
  split; [|split].
  - destruct x as [| b | z | s | l | l | d];
      try (match goal with
           | G : dict_get "extras" pkg = Some ?x |- _ =>
               apply (convert_to_extras_needs_a_list pkg x G);
               [discriminate | exact Up]
           end).
    rewrite (convert_list_extras pkg l Wp Gp), Up. simpl.
    rewrite app_nil_r, dict_set_same_value by exact Gp.
    now rewrite recognised_all.
  - unfold dict_mem. now rewrite Gp.
  - intros k I. subst pkg. apply recognised_keys in I.
    now apply mem_string_In.
Qed.

Lemma convert_to_extras_is_idempotent_witness :
  _convert_to_extras
    [ ("extras", VList [VTuple [VStr "foo"; VStr "Z"];
                        VTuple [VStr "foo"; VStr "Z"]]);
      ("id", VStr "1") ] =
    Ok [ ("extras", VList [VTuple [VStr "foo"; VStr "Z"];
                           VTuple [VStr "foo"; VStr "Z"]]);
         ("id", VStr "1") ] /\
  dict_mem "extras"
    [ ("extras", VList [VTuple [VStr "foo"; VStr "Z"];
                        VTuple [VStr "foo"; VStr "Z"]]);
      ("id", VStr "1") ] = true /\
  (forall k,
     In k (dict_keys
             [ ("extras", VList [VTuple [VStr "foo"; VStr "Z"];
                                 VTuple [VStr "foo"; VStr "Z"]]);
               ("id", VStr "1") ]) ->
     In k DEFAULT_ATTRIBUTES).
Proof.
  apply (convert_to_extras_is_idempotent raw_with_extras).
  - exact wf_raw_with_extras.
  - reflexivity.
Defined.

(** ** More on the import stage *)

Lemma string_take_length n : forall s,
  String.length (string_take n s) = Nat.min n (String.length s).
Proof.
  induction n as [|n IH]; intros s; [reflexivity|].
  destruct s as [|c r]; [reflexivity|]. simpl. now rewrite IH.
Qed.

Lemma string_take_short n : forall s,
  String.length s <= n -> string_take n s = s.
Proof.
  induction n as [|n IH]; intros s L.
  - destruct s; [reflexivity | simpl in L; lia].
  - destruct s as [|c r]; [reflexivity|]. simpl in *. rewrite IH; [reflexivity | lia].
Qed.

Lemma string_take_prefix n : forall s, exists rest, s = string_take n s ++ rest.
Proof.
  induction n as [|n IH]; intros s; [now exists s|].
  destruct s as [|c r]; [now exists ""|].
  destruct (IH r) as [rest E]. exists rest. simpl. now rewrite <- E.
Qed.

Lemma dict_keys_set k k' v d :
  In k (dict_keys (dict_set k' v d)) <-> k = k' \/ In k (dict_keys d).
Proof.
  destruct (dict_mem k' d) eqn:M.
  - rewrite dict_keys_set_present by exact M. split; [auto|].
    intros [E|I]; [|exact I]. subst. now apply dict_mem_key.
  - rewrite dict_set_absent by exact M. unfold dict_keys.
    rewrite map_app, in_app_iff. simpl. intuition.
Qed.

(** Every call that had to succeed for [package_dict] to return. *)
Lemma package_dict_inv repr munge_tag ckan_config config source_url guid raw rec :
  package_dict repr munge_tag ckan_config config source_url guid raw = Ok rec ->
  exists pkg license tags raw_tags version version' title name,
    _convert_to_extras raw = Ok pkg /\
    configured_license ckan_config config = Ok license /\
    dict_get "tags" pkg = Some tags /\ iterate tags = Ok raw_tags /\
    dict_get "version" pkg = Some version /\
    slice_to 100 version = Ok version' /\
    dict_get "title" pkg = Some title /\
    format_s repr "DDI XML of " title = Ok name /\
    rec =
      dict_set "resources"
        (VList (synthetic_resources (rstrip_slash source_url) guid name))
        (dict_set "version" version'
           (dict_set "tags" (VList (munge_tags munge_tag raw_tags))
              (dict_set "license_id" license
                 (dict_set "url"
                    (VStr (rstrip_slash source_url ++ "/index.php/catalog/" ++ guid))
                    pkg)))).
Proof.
  intros H. unfold package_dict in H.
  cbv zeta in H. unfold bind in H.
  destruct (_convert_to_extras raw) as [pkg|] eqn:C; [|discriminate H].
  destruct (configured_license ckan_config config) as [license|] eqn:L;
    [|discriminate H].
  unfold getitem in H.
  repeat (rewrite ?dict_get_set_same in H;
          rewrite ?dict_get_set_other in H by discriminate).
  destruct (dict_get "tags" pkg) as [tags|] eqn:T; [|discriminate H].
  destruct (iterate tags) as [raw_tags|] eqn:I; [|discriminate H].
  repeat (rewrite ?dict_get_set_same in H;
          rewrite ?dict_get_set_other in H by discriminate).
  destruct (dict_get "version" pkg) as [version|] eqn:V; [|discriminate H].
  destruct (slice_to 100 version) as [version'|] eqn:S; [|discriminate H].
  repeat (rewrite ?dict_get_set_same in H;
          rewrite ?dict_get_set_other in H by discriminate).
  destruct (dict_get "title" pkg) as [title|] eqn:Ti; [|discriminate H].
  destruct (format_s repr "DDI XML of " title) as [name|] eqn:F;
    [|discriminate H].
  inversion H; subst rec.
  exists pkg, license, tags, raw_tags, version, version', title, name.
  repeat split; auto.
Qed.

Lemma package_dict_fields repr munge_tag ckan_config config source_url guid raw rec :
  wf_dict raw ->
  package_dict repr munge_tag ckan_config config source_url guid raw = Ok rec ->
  exists extras license tags raw_tags version version' title name,
    configured_license ckan_config config = Ok license /\
    dict_get "tags" raw = Some tags /\ iterate tags = Ok raw_tags /\
    dict_get "version" raw = Some version /\
    slice_to 100 version = Ok version' /\
    dict_get "title" raw = Some title /\
    format_s repr "DDI XML of " title = Ok name /\
    rec =
      dict_set "resources"
        (VList (synthetic_resources (rstrip_slash source_url) guid name))
        (dict_set "version" version'
           (dict_set "tags" (VList (munge_tags munge_tag raw_tags))
              (dict_set "license_id" license
                 (dict_set "url"
                    (VStr (rstrip_slash source_url ++ "/index.php/catalog/" ++ guid))
                    (recognised (dict_set "extras" extras raw)))))).
Proof.
  intros W H. apply package_dict_inv in H.
  destruct H as (pkg & license & tags & raw_tags & version & version' & title
                 & name & C & L & T & I & V & S & Ti & F & R).
  destruct (convert_inv raw pkg W C) as [extras E]. subst pkg.
  rewrite kept_field in T, V, Ti by (reflexivity || discriminate).
  exists extras, license, tags, raw_tags, version, version', title, name.
  repeat split; auto.
Qed.

Lemma package_has_only_catalogue_fields_keys
  repr munge_tag ckan_config config source_url guid raw rec :
  wf_dict raw ->
  package_dict repr munge_tag ckan_config config source_url guid raw = Ok rec ->
  forall k, In k (dict_keys rec) -> In k DEFAULT_ATTRIBUTES \/ k = "resources".
Proof.
  intros W H.
  destruct (package_dict_fields _ _ _ _ _ _ _ _ W H)
    as (extras & license & tags & raw_tags & version & version' & title & name
        & _ & _ & _ & _ & _ & _ & _ & R).
  subst rec. intros k I.
  repeat (apply dict_keys_set in I; destruct I as [E|I];
    [subst k; simpl; tauto|]).
  left. apply mem_string_In. now apply recognised_keys in I.
Qed.

(** X9. Every package the import stage builds has the keys [title],
    [url], [license_id], [tags], [version], [extras] and [resources],
    no key twice, and no key besides the recognised attributes and
    [resources]: nothing the parser made up stays at the top level. *)
Theorem package_has_only_catalogue_fields
  (repr : value -> string) (munge_tag : string -> string)
  (ckan_config : dict) (config : value) (source_url guid : string)
  (raw rec : dict) :
  wf_dict raw ->
  package_dict repr munge_tag ckan_config config source_url guid raw = Ok rec ->
  wf_dict rec /\
  (forall k, In k (dict_keys rec) -> In k DEFAULT_ATTRIBUTES \/ k = "resources") /\
  (forall k,
     In k ["title"; "url"; "license_id"; "tags"; "version"; "extras"; "resources"] ->
     dict_mem k rec = true).
Proof.
  intros W H.
  destruct (package_dict_fields _ _ _ _ _ _ _ _ W H)
    as (extras & license & tags & raw_tags & version & version' & title & name
        & _ & _ & _ & _ & _ & Ti & _ & R).
  subst rec. split; [|split].
  - repeat apply wf_dict_set. apply wf_dict_filter. now apply wf_dict_set.
  - intros k I. repeat (apply dict_keys_set in I; destruct I as [E|I];
      [subst k; simpl; tauto|]).
    left. apply mem_string_In. now apply recognised_keys in I.
  - intros k I. unfold dict_mem. simpl in I.
    repeat (destruct I as [E|I]; [subst k|]); try contradiction;
      dict_simpl; try reflexivity.
    + rewrite kept_field, Ti by (reflexivity || discriminate). reflexivity.
    + rewrite dict_get_recognised. simpl. now rewrite dict_get_set_same.
Qed.

Lemma package_has_only_catalogue_fields_witness :
  wf_dict package_639 /\
  (forall k, In k (dict_keys package_639) ->
     In k DEFAULT_ATTRIBUTES \/ k = "resources") /\
  (forall k,
     In k ["title"; "url"; "license_id"; "tags"; "version"; "extras"; "resources"] ->
     dict_mem k package_639 = true).
Proof.
  apply (package_has_only_catalogue_fields repr_opaque munge_tag_ascii []
           example_config "http://nada.example/" "639"
           raw_with_url_and_resources package_639).
  - unfold wf_dict, raw_with_url_and_resources. simpl.
    repeat (constructor; [simpl; intuition discriminate|]). constructor.
  - reflexivity.
Defined.

(** X10. The import stage hands on [id], [name], [title], [author],
    [author_email], [maintainer], [maintainer_email] and [notes] as the
    parser gave them (or leaves them out as the parser did), and sets
    [license_id] from the configuration, whatever license the document
    named: the [license] of the source's configuration if it has one,
    else the catalogue's [ckanext.ddi.default_license], else the empty
    string. *)
Theorem parsed_fields_pass_and_license_is_configured
  (repr : value -> string) (munge_tag : string -> string)
  (ckan_config d : dict) (source_url guid : string) (raw rec : dict) :
  wf_dict raw ->
  package_dict repr munge_tag ckan_config (VDict d) source_url guid raw = Ok rec ->
  (forall k,
     In k ["id"; "name"; "title"; "author"; "author_email"; "maintainer";
           "maintainer_email"; "notes"] ->
     dict_get k rec = dict_get k raw) /\
  dict_get "license_id" rec =
    Some (match dict_get "license" d with
          | Some license => license
          | None =>
              match dict_get "ckanext.ddi.default_license" ckan_config with
              | Some license => license
              | None => VStr ""
              end
          end).
Proof.
  intros W H.
  destruct (package_dict_fields _ _ _ _ _ _ _ _ W H)
    as (extras & license & tags & raw_tags & version & version' & title & name
        & L & _ & _ & _ & _ & _ & _ & R).
  subst rec. split.
  - intros k I. simpl in I.
    repeat (destruct I as [E|I]; [subst k|]); try contradiction;
      dict_simpl; apply kept_field; (reflexivity || discriminate).
  - dict_simpl. f_equal.
    unfold configured_license, contains, subscript, getitem, dict_mem,
      dict_get_default, bind in L.
    destruct (dict_get "license" d); now inversion L.
Qed.

Lemma parsed_fields_pass_and_license_is_configured_witness :
  (forall k,
     In k ["id"; "name"; "title"; "author"; "author_email"; "maintainer";
           "maintainer_email"; "notes"] ->
     dict_get k package_639 = dict_get k raw_with_url_and_resources) /\
  dict_get "license_id" package_639 =
    Some (match dict_get "license" [("user", VStr "harvest")] with
          | Some license => license
          | None =>
              match dict_get "ckanext.ddi.default_license" [] with
              | Some license => license
              | None => VStr ""
              end
          end).
Proof.
  apply (parsed_fields_pass_and_license_is_configured repr_opaque
           munge_tag_ascii [] [("user", VStr "harvest")]
           "http://nada.example/" "639" raw_with_url_and_resources package_639).
  - unfold wf_dict, raw_with_url_and_resources. simpl.
    repeat (constructor; [simpl; intuition discriminate|]). constructor.
  - reflexivity.
Defined.

Lemma wf_raw_without_title : wf_dict raw_without_title.
Proof.
  unfold wf_dict, raw_without_title. simpl.
  repeat (constructor; [simpl; intuition discriminate|]). constructor.
Qed.

(** X11. A document the parser gives no [tags], no [version] or no
    [title] is not imported: building the package raises [KeyError]
    for the first of the three that is missing, in this order; tags
    that cannot be walked or a version that cannot be sliced raise
    their own exception ([TypeError] for [None]). *)
Theorem import_needs_tags_version_and_title
  (repr : value -> string) (munge_tag : string -> string)
  (ckan_config : dict) (config : value) (source_url guid : string)
  (raw : dict) (e0 : list value) (license : value) :
  wf_dict raw ->
  dict_get "extras" raw = Some (VList e0) \/
  (dict_get "extras" raw = None /\ e0 = []) ->
  configured_license ckan_config config = Ok license ->
  (dict_get "tags" raw = None ->
   package_dict repr munge_tag ckan_config config source_url guid raw =
     Raise (KeyError (VStr "tags"))) /\
  (forall tags e,
     dict_get "tags" raw = Some tags -> iterate tags = Raise e ->
     package_dict repr munge_tag ckan_config config source_url guid raw =
       Raise e) /\
  (forall tags raw_tags,
     dict_get "tags" raw = Some tags -> iterate tags = Ok raw_tags ->
     (dict_get "version" raw = None ->
      package_dict repr munge_tag ckan_config config source_url guid raw =
        Raise (KeyError (VStr "version"))) /\
     (forall version e,
        dict_get "version" raw = Some version ->
        slice_to 100 version = Raise e ->
        package_dict repr munge_tag ckan_config config source_url guid raw =
          Raise e) /\
     (forall version version',
        dict_get "version" raw = Some version ->
        slice_to 100 version = Ok version' ->
        dict_get "title" raw = None ->
        package_dict repr munge_tag ckan_config config source_url guid raw =
          Raise (KeyError (VStr "title")))).
Proof.
  intros W He L.
  split; [|split].
  - intros T. unfold package_dict.
    rewrite (convert_result raw e0 W He), L.
    cbv beta iota zeta delta [bind]. unfold getitem.
    dict_simpl. rewrite (kept_field "tags"), T by (reflexivity || discriminate).
    reflexivity.
  - intros tags e T I. unfold package_dict.
    rewrite (convert_result raw e0 W He), L.
    cbv beta iota zeta delta [bind]. unfold getitem.
    dict_simpl. rewrite (kept_field "tags"), T, I by (reflexivity || discriminate).
    reflexivity.
  - intros tags raw_tags T I. split; [|split].
    + intros V. unfold package_dict.
      rewrite (convert_result raw e0 W He), L.
      cbv beta iota zeta delta [bind]. unfold getitem.
      dict_simpl.
      rewrite (kept_field "tags"), T, I by (reflexivity || discriminate).
      dict_simpl.
      rewrite (kept_field "version"), V by (reflexivity || discriminate).
      reflexivity.
    + intros version e V S. unfold package_dict.
      rewrite (convert_result raw e0 W He), L.
      cbv beta iota zeta delta [bind]. unfold getitem.
      dict_simpl.
      rewrite (kept_field "tags"), T, I by (reflexivity || discriminate).
      dict_simpl.
      rewrite (kept_field "version"), V, S by (reflexivity || discriminate).
      reflexivity.
    + intros version version' V S Ti. unfold package_dict.
      rewrite (convert_result raw e0 W He), L.
      cbv beta iota zeta delta [bind]. unfold getitem.
      dict_simpl.
      rewrite (kept_field "tags"), T, I by (reflexivity || discriminate).
      dict_simpl.
      rewrite (kept_field "version"), V, S by (reflexivity || discriminate).
      dict_simpl.
      rewrite (kept_field "title"), Ti by (reflexivity || discriminate).
      reflexivity.
Qed.

Lemma import_needs_tags_version_and_title_witness :
  package_dict repr_opaque munge_tag_ascii [] example_config
    "http://nada.example/" "7" raw_without_title =
    Raise (KeyError (VStr "title")).
Proof.
  apply (proj2 (proj2 (proj2 (proj2
    (import_needs_tags_version_and_title repr_opaque munge_tag_ascii []
       example_config "http://nada.example/" "7" raw_without_title []
       (VStr "") wf_raw_without_title (or_intror (conj eq_refl eq_refl))
       eq_refl))
    (VList []) [] eq_refl eq_refl)) (VStr "1") (VStr "1") eq_refl eq_refl
    eq_refl).
Defined.

Example null_tags_are_a_type_error :
  package_dict repr_opaque munge_tag_ascii [] example_config
    "http://nada.example/" "7" raw_with_null_tags = Raise TypeError.
Proof. reflexivity. Qed.

Lemma munge_tags_map_filter munge_tag raw_tags :
  munge_tags munge_tag raw_tags =
  map (fun x => match x with
                | VStr tag => VStr (munge_tag (string_take 100 tag))
                | other => other
                end)
      (filter is_string raw_tags).
Proof.
  induction raw_tags as [|x r IH]; [reflexivity|].
  destruct x; simpl; rewrite IH; reflexivity.
Qed.

Lemma munge_tags_strings munge_tag raw_tags :
  Forall (fun x => exists tag,
            In (VStr tag) raw_tags /\
            x = VStr (munge_tag (string_take 100 tag)) /\
            String.length (string_take 100 tag) <= 100)
    (munge_tags munge_tag raw_tags).
Proof.
  induction raw_tags as [|x r IH]; [constructor|].
  assert (IH' : Forall (fun y => exists tag,
            In (VStr tag) (x :: r) /\
            y = VStr (munge_tag (string_take 100 tag)) /\
            String.length (string_take 100 tag) <= 100)
    (munge_tags munge_tag r)).
  { eapply Forall_impl; [|exact IH]. intros y (tag & I & E & L).
    exists tag. simpl. auto. }
  destruct x; cbn [munge_tags]; try exact IH'.
  constructor; [|exact IH'].
  exists s. split; [now left|]. split; [reflexivity|].
  rewrite string_take_length. apply Nat.le_min_l.
Qed.

(** X12. The [tags] of a package are the string tags of the parsed
    document, in their order, each cut to its first 100 characters and
    then munged; whatever is not a string is left out, so there are as
    many tags as there were strings, and [munge_tag] never gets more
    than 100 characters. *)
Theorem tags_are_the_munged_string_tags
  (repr : value -> string) (munge_tag : string -> string)
  (ckan_config : dict) (config : value) (source_url guid : string)
  (raw rec : dict) :
  wf_dict raw ->
  package_dict repr munge_tag ckan_config config source_url guid raw = Ok rec ->
  exists tags raw_tags,
    dict_get "tags" raw = Some tags /\
    iterate tags = Ok raw_tags /\
    dict_get "tags" rec = Some (VList (munge_tags munge_tag raw_tags)) /\
    munge_tags munge_tag raw_tags =
      map (fun x => match x with
                    | VStr tag => VStr (munge_tag (string_take 100 tag))
                    | other => other
                    end)
          (filter is_string raw_tags) /\
    length (munge_tags munge_tag raw_tags) = count_strings raw_tags /\
    Forall (fun x => exists tag,
              In (VStr tag) raw_tags /\
              x = VStr (munge_tag (string_take 100 tag)) /\
              String.length (string_take 100 tag) <= 100)
      (munge_tags munge_tag raw_tags).
Proof.
  intros W H.
  destruct (package_dict_fields _ _ _ _ _ _ _ _ W H)
    as (extras & license & tags & raw_tags & version & version' & title & name
        & _ & T & I & _ & _ & _ & _ & R).
  exists tags, raw_tags. subst rec.
  split; [exact T|]. split; [exact I|]. split; [now dict_simpl|].
  split; [apply munge_tags_map_filter|].
  split; [|apply munge_tags_strings].
  rewrite munge_tags_map_filter, length_map. reflexivity.
Qed.

Lemma wf_raw_with_url_and_resources : wf_dict raw_with_url_and_resources.
Proof.
  unfold wf_dict, raw_with_url_and_resources. simpl.
  repeat (constructor; [simpl; intuition discriminate|]). constructor.
Qed.

Lemma tags_are_the_munged_string_tags_witness :
  exists tags raw_tags,
    dict_get "tags" raw_with_url_and_resources = Some tags /\
    iterate tags = Ok raw_tags /\
    dict_get "tags" package_639 =
      Some (VList (munge_tags munge_tag_ascii raw_tags)) /\
    munge_tags munge_tag_ascii raw_tags =
      map (fun x => match x with
                    | VStr tag => VStr (munge_tag_ascii (string_take 100 tag))
                    | other => other
                    end)
          (filter is_string raw_tags) /\
    length (munge_tags munge_tag_ascii raw_tags) = count_strings raw_tags /\
    Forall (fun x => exists tag,
              In (VStr tag) raw_tags /\
              x = VStr (munge_tag_ascii (string_take 100 tag)) /\
              String.length (string_take 100 tag) <= 100)
      (munge_tags munge_tag_ascii raw_tags).
Proof.
  apply (tags_are_the_munged_string_tags repr_opaque munge_tag_ascii []
           example_config "http://nada.example/" "639"
           raw_with_url_and_resources package_639).
  - exact wf_raw_with_url_and_resources.
  - reflexivity.
Defined.

(** X13. When the parsed [version] is a string, the package's
    [version] is its first 100 characters: a prefix of it, at most 100
    characters long, and the version itself when that has no more than
    100. *)
Theorem version_is_cut_to_100_characters
  (repr : value -> string) (munge_tag : string -> string)
  (ckan_config : dict) (config : value) (source_url guid : string)
  (raw rec : dict) (version : string) :
  wf_dict raw ->
  package_dict repr munge_tag ckan_config config source_url guid raw = Ok rec ->
  dict_get "version" raw = Some (VStr version) ->
  dict_get "version" rec = Some (VStr (string_take 100 version)) /\
  String.length (string_take 100 version) = Nat.min 100 (String.length version) /\
  (exists rest, version = string_take 100 version ++ rest) /\
  (String.length version <= 100 -> dict_get "version" rec = Some (VStr version)).
Proof.
  intros W H V.
  destruct (package_dict_fields _ _ _ _ _ _ _ _ W H)
    as (extras & license & tags & raw_tags & v & v' & title & name
        & _ & _ & _ & V' & S & _ & _ & R).
  rewrite V in V'. inversion V'. subst v. simpl in S. inversion S. subst v'.
  assert (G : dict_get "version" rec = Some (VStr (string_take 100 version)))
    by (subst rec; now dict_simpl).
  split; [exact G|]. split; [apply string_take_length|].
  split; [apply string_take_prefix|].
  intros L. now rewrite G, string_take_short.
Qed.

Lemma wf_example_raw : wf_dict example_raw.
Proof.
  unfold wf_dict, example_raw. simpl.
  repeat (constructor; [simpl; intuition discriminate|]). constructor.
Qed.

Lemma version_is_cut_to_100_characters_witness :
  dict_get "version" example_package =
    Some (VStr (string_take 100 (repeat_string 200 "v"))) /\
  String.length (string_take 100 (repeat_string 200 "v")) =
    Nat.min 100 (String.length (repeat_string 200 "v")) /\
  (exists rest,
     repeat_string 200 "v" = string_take 100 (repeat_string 200 "v") ++ rest) /\
  (String.length (repeat_string 200 "v") <= 100 ->
   dict_get "version" example_package = Some (VStr (repeat_string 200 "v"))).
Proof.
  apply (version_is_cut_to_100_characters repr_opaque munge_tag_ascii []
           example_config "http://nada.example/" "1"
           example_raw example_package (repeat_string 200 "v")).
  - exact wf_example_raw.
  - vm_compute. reflexivity.
  - reflexivity.
Defined.

(** ** Fetch stage, and how the stages fit *)

(** X16. A fetch asks for [{base_url}/index.php/catalog/ddi/{guid}]
    and nothing else decides its outcome: it returns [True] exactly
    when that request gave a text, which then is the object's content,
    with no error saved; it returns [False] exactly when the request
    raised, with the content left as it was and one object error that
    names the URL and the exception. The URL is the one every package
    built for the same object gives as its [xml] resource. *)
Theorem fetch_gets_the_document_the_package_links
  (json_loads : string -> result value) (http_get_text : string -> result string)
  (ho : harvest_object) (errors : list ObjectError)
  (b : bool) (ho' : option harvest_object) (errors' : list ObjectError) :
  fetch_stage json_loads http_get_text (Some ho) errors = Ok (b, ho', errors') ->
  (b = true ->
   errors' = errors /\
   exists text,
     http_get_text (rstrip_slash (obj_source_url ho)
                    ++ "/index.php/catalog/ddi/" ++ obj_guid ho) = Ok text /\
     ho' = Some (set_content text ho)) /\
  (b = false ->
   ho' = Some ho /\
   exists e,
     http_get_text (rstrip_slash (obj_source_url ho)
                    ++ "/index.php/catalog/ddi/" ++ obj_guid ho) = Raise e /\
     errors' =
       (errors ++ [FetchFailed
                     (Some (rstrip_slash (obj_source_url ho)
                            ++ "/index.php/catalog/ddi/"
                            ++ obj_guid ho)%string) e])%list) /\
  (forall repr munge_tag ckan_config config raw rec,
     package_dict repr munge_tag ckan_config config
       (obj_source_url ho) (obj_guid ho) raw = Ok rec ->
     exists name rest,
       dict_get "resources" rec =
         Some (VList
                 (VDict [ ("url", VStr (rstrip_slash (obj_source_url ho)
                                         ++ "/index.php/catalog/ddi/"
                                         ++ obj_guid ho));
                          ("name", VStr name);
                          ("format", VStr "xml") ] :: rest))).
Proof.
  intros F. unfold fetch_stage in F.
  destruct (_set_config json_loads (obj_source_config ho)) as [config|];
    [|discriminate F].
  cbn [bind] in F. unfold _get_ddi_api in F.
  destruct (http_get_text _) as [text|e] eqn:H; inversion F; subst.
  - split; [|split].
    + intros _. split; [reflexivity|]. now exists text.
    + discriminate.
    + intros repr munge_tag ckan_config config' raw rec P.
      apply package_dict_shape in P.
      destruct P as (pkg & license & tags & version & name & _ & R).
      subst rec. rewrite dict_get_set_same. exists name. eexists. reflexivity.
  - split; [|split].
    + discriminate.
    + intros _. split; [reflexivity|]. now exists e.
    + intros repr munge_tag ckan_config config' raw rec P.
      apply package_dict_shape in P.
      destruct P as (pkg & license & tags & version & name & _ & R).
      subst rec. rewrite dict_get_set_same. exists name. eexists. reflexivity.
Qed.

Lemma fetch_gets_the_document_the_package_links_witness :
  (true = true ->
   ([] : list ObjectError) = [] /\
   exists text,
     ddi_server (rstrip_slash (obj_source_url object_639)
                 ++ "/index.php/catalog/ddi/" ++ obj_guid object_639) = Ok text /\
     Some (set_content "<codeBook><stdyDscr/></codeBook>" object_639) =
       Some (set_content text object_639)) /\
  (true = false ->
   Some (set_content "<codeBook><stdyDscr/></codeBook>" object_639) =
     Some object_639 /\
   exists e,
     ddi_server (rstrip_slash (obj_source_url object_639)
                 ++ "/index.php/catalog/ddi/" ++ obj_guid object_639) = Raise e /\
     ([] : list ObjectError) =
       ([] ++ [FetchFailed
                 (Some (rstrip_slash (obj_source_url object_639)
                        ++ "/index.php/catalog/ddi/"
                        ++ obj_guid object_639)%string) e])%list) /\
  (forall repr munge_tag ckan_config config raw rec,
     package_dict repr munge_tag ckan_config config
       (obj_source_url object_639) (obj_guid object_639) raw = Ok rec ->
     exists name rest,
       dict_get "resources" rec =
         Some (VList
                 (VDict [ ("url", VStr (rstrip_slash (obj_source_url object_639)
                                         ++ "/index.php/catalog/ddi/"
                                         ++ obj_guid object_639));
                          ("name", VStr name);
                          ("format", VStr "xml") ] :: rest))).
Proof.
  apply (fetch_gets_the_document_the_package_links no_json_loads ddi_server
           object_639 [] true
           (Some (set_content "<codeBook><stdyDscr/></codeBook>" object_639)) []).
  reflexivity.
Defined.

(** X17. Once the configuration is loaded, no exception of the parser,
    of the field policies or of the catalogue leaves [import_stage]:
    it returns the catalogue's answer for a package that has only
    recognised attributes and [resources] at the top level, or it
    returns [False] and saves the exception that came up, in which case
    the catalogue's answer plays no part. *)
Theorem import_stage_reports_instead_of_raising
  (json_loads : string -> result value) (source_config : string)
  (repr : value -> string) (munge_tag : string -> string)
  (load : string -> result dict) (ckan_config : dict)
  (_create_or_update_package : dict -> result bool)
  (source_url guid content : string) (config : value) :
  _set_config json_loads source_config = Ok config ->
  (forall c raw, load c = Ok raw -> wf_dict raw) ->
  exists b err,
    import_stage json_loads source_config repr munge_tag load ckan_config
      _create_or_update_package source_url guid content = Ok (b, err) /\
    (err = None ->
     exists raw pkg,
       load content = Ok raw /\
       package_dict repr munge_tag ckan_config config source_url guid raw
         = Ok pkg /\
       _create_or_update_package pkg = Ok b /\
       (forall k, In k (dict_keys pkg) ->
          In k DEFAULT_ATTRIBUTES \/ k = "resources")) /\
    (forall e, err = Some e ->
       b = false /\
       (load content = Raise e \/
        (exists raw,
           load content = Ok raw /\
           package_dict repr munge_tag ckan_config config source_url guid raw
             = Raise e) \/
        (exists raw pkg,
           load content = Ok raw /\
           package_dict repr munge_tag ckan_config config source_url guid raw
             = Ok pkg /\
           _create_or_update_package pkg = Raise e))).
Proof.
  intros C W. unfold import_stage. rewrite C. cbn [bind].
  destruct (load content) as [raw|e] eqn:L; cbn [bind].
  - destruct (package_dict repr munge_tag ckan_config config source_url guid raw)
      as [pkg|e] eqn:P; cbn [bind].
    + destruct (_create_or_update_package pkg) as [b|e] eqn:S.
      * exists b, None. split; [reflexivity|]. split; [|discriminate].
        intros _. exists raw, pkg. repeat split; auto.
        apply (package_has_only_catalogue_fields_keys repr munge_tag ckan_config
                 config source_url guid raw pkg (W content raw L) P).
      * exists false, (Some e). split; [reflexivity|]. split; [discriminate|].
        intros e' E. inversion E. subst e'. split; [reflexivity|].
        right. right. now exists raw, pkg.
    + exists false, (Some e). split; [reflexivity|]. split; [discriminate|].
      intros e' E. inversion E. subst e'. split; [reflexivity|].
      right. left. now exists raw.
  - exists false, (Some e). split; [reflexivity|]. split; [discriminate|].
    intros e' E. inversion E. subst e'. split; [reflexivity|]. now left.
Qed.

Lemma import_stage_reports_instead_of_raising_witness :
  exists b err,
    import_stage no_json_loads "" repr_opaque munge_tag_ascii load_example []
      store_everything "http://nada.example/" "639"
      "<codeBook><stdyDscr/></codeBook>" = Ok (b, err) /\
    (err = None ->
     exists raw pkg,
       load_example "<codeBook><stdyDscr/></codeBook>" = Ok raw /\
       package_dict repr_opaque munge_tag_ascii [] example_config
         "http://nada.example/" "639" raw = Ok pkg /\
       store_everything pkg = Ok b /\
       (forall k, In k (dict_keys pkg) ->
          In k DEFAULT_ATTRIBUTES \/ k = "resources")) /\
    (forall e, err = Some e ->
       b = false /\
       (load_example "<codeBook><stdyDscr/></codeBook>" = Raise e \/
        (exists raw,
           load_example "<codeBook><stdyDscr/></codeBook>" = Ok raw /\
           package_dict repr_opaque munge_tag_ascii [] example_config
             "http://nada.example/" "639" raw = Raise e) \/
        (exists raw pkg,
           load_example "<codeBook><stdyDscr/></codeBook>" = Ok raw /\
           package_dict repr_opaque munge_tag_ascii [] example_config
             "http://nada.example/" "639" raw = Ok pkg /\
           store_everything pkg = Raise e))).
Proof.
  apply (import_stage_reports_instead_of_raising no_json_loads "" repr_opaque
           munge_tag_ascii load_example [] store_everything
           "http://nada.example/" "639" "<codeBook><stdyDscr/></codeBook>"
           example_config).
  - reflexivity.
  - intros c raw L. inversion L. exact wf_raw_with_url_and_resources.
Defined.

Section GatherTermination.

Variables json_loads http_get_json : string -> result value.
Variables source_config source_url : string.
Variable config : value.
Variable url : Z -> string.
Variables limit found : Z.

Hypothesis config_loaded : _set_config json_loads source_config = Ok config.
Hypothesis url_built :
  forall p, search_url config (rstrip_slash source_url) p = Ok (url p).
Hypothesis limit_positive : (0 < limit)%Z.
Hypothesis well_behaved :
  forall p, (1 <= p <= Z.of_nat (page_count limit found))%Z ->
    exists data guids,
      http_get_json (url p) = Ok data /\
      reports data guids ((p - 1) * limit) limit found.

Local Notation "'loop'" :=
  (gather_loop json_loads http_get_json source_config source_url).
Local Notation "'stage'" :=
  (gather_stage json_loads http_get_json source_config source_url).

Lemma loop_reaches_the_last_page more : forall s fuel,
  (1 <= page s)%Z ->
  (page s + Z.of_nat more <= Z.of_nat (page_count limit found))%Z ->
  (forall i, (page s <= i < page s + Z.of_nat more)%Z -> (i * limit < found)%Z) ->
  (found <= (page s + Z.of_nat more) * limit)%Z ->
  exists s',
    loop (S more + fuel) s = (Ok Finished, s') /\
    requested s' = (requested s ++ map url (pages_from (page s) (S more)))%list /\
    gather_errors s' = gather_errors s /\
    length (harvest_obj_ids s') + length (objects s) =
      length (objects s') + length (harvest_obj_ids s).
Proof.
  induction more as [|more IH]; intros s fuel P Up Lt Ge.
  - destruct (well_behaved (page s)) as (data & guids & H & R); [lia|].
    apply reports_summary in R. rewrite <- H in R.
    assert (C : ((page s - 1) * limit + limit <? found)%Z = false)
      by (apply Z.ltb_ge; simpl in Ge; lia).
    rewrite C in R.
    exists (page_done (url (page s)) guids s). split.
    + now apply (loop_last json_loads http_get_json source_config source_url
                   config url config_loaded url_built).
    + destruct (page_done_fields (url (page s)) guids s)
        as (A & B & E & D & _).
      rewrite A, B, E, D, !length_app, length_map. simpl. repeat split. lia.
  - destruct (well_behaved (page s)) as (data & guids & H & R); [lia|].
    apply reports_summary in R. rewrite <- H in R.
    assert (C : ((page s - 1) * limit + limit <? found)%Z = true).
    { apply Z.ltb_lt. specialize (Lt (page s)). lia. }
    rewrite C in R.
    change (S (S more) + fuel) with (S (S more + fuel)).
    rewrite (loop_more json_loads http_get_json source_config source_url
               config url config_loaded url_built _ s guids R).
    destruct (page_done_fields (url (page s)) guids s)
      as (A & B & E & D & _ & Pg).
    destruct (IH (page_done (url (page s)) guids s) fuel) as (s' & L & Rq & Er & Ln).
    + rewrite Pg. lia.
    + rewrite Pg. lia.
    + intros i Hi. apply Lt. rewrite Pg in Hi. lia.
    + rewrite Pg. lia.
    + exists s'. split; [exact L|]. rewrite Rq, Er, E, D, Pg.
      rewrite A, B, !length_app, length_map in Ln.
      cbn [pages_from map]. rewrite <- app_assoc. repeat split. lia.
Qed.

Lemma page_count_spec :
  1 <= page_count limit found /\
  (found <= Z.of_nat (page_count limit found) * limit)%Z /\
  (forall i, (1 <= i < Z.of_nat (page_count limit found))%Z -> (i * limit < found)%Z).
Proof.
  unfold page_count.
  pose proof (Z.div_mod (found + limit - 1) limit) as D.
  pose proof (Z.mod_pos_bound (found + limit - 1) limit limit_positive) as B.
  set (q := ((found + limit - 1) / limit)%Z) in *.
  set (r := ((found + limit - 1) mod limit)%Z) in *.
  assert (D' : (found + limit - 1 = limit * q + r)%Z) by (apply D; lia).
  split; [lia|]. rewrite Z2Nat.id by lia. split.
  - destruct (Z.max_spec 1 q) as [[Q ->] | [Q ->]]; nia.
  - intros i Hi. destruct (Z.max_spec 1 q) as [[Q E] | [Q E]];
      rewrite E in Hi; nia.
Qed.

(** X18. Against a server that keeps its word -- each page p up to
    the last reports the offset (p-1)*limit, the same positive limit
    and the same found -- the gather stage ends: it asks for the pages 1, ...,
    max(1, ceil(found/limit)), no more and no fewer, saves no gather
    error and returns one id for every harvest object it created. *)
Theorem gather_ends_on_a_paging_server
  (objs : list HarvestObject) (errs : list GatherError) (fuel : nat) :
  exists ids s,
    stage (page_count limit found + fuel) objs errs = (Returns (Some ids), s) /\
    requested s = map url (pages_from 1 (page_count limit found)) /\
    gather_errors s = errs /\
    length ids = length (objects s) - length objs.
Proof.
  destruct page_count_spec as (One & Ge & Lt).
  assert (N : exists more, page_count limit found = S more)
    by (exists (page_count limit found - 1); lia).
  destruct N as [more N].
  destruct (loop_reaches_the_last_page more (start_gather objs errs) fuel)
    as (s & L & Rq & Er & Ln).
  - simpl. lia.
  - cbn [start_gather page]. lia.
  - intros i Hi. apply Lt. cbn [start_gather page] in Hi. lia.
  - cbn [start_gather page]. lia.
  - rewrite N. exists (harvest_obj_ids s), s. split.
    + now apply stage_finished.
    + cbn [start_gather requested gather_errors harvest_obj_ids objects length app]
        in Rq, Er, Ln.
      rewrite Rq, Er. repeat split. lia.
Qed.

End GatherTermination.

Lemma server_25_keeps_its_word p :
  (1 <= p <= Z.of_nat (page_count 10 25))%Z ->
  exists data guids,
    server_25 (example_url p) = Ok data /\
    reports data guids ((p - 1) * 10) 10 25.
Proof.
  intros B. change (Z.of_nat (page_count 10 25)) with 3%Z in B.
  assert (C : p = 1%Z \/ p = 2%Z \/ p = 3%Z) by lia.
  destruct C as [-> | [-> | ->]].
  - exists (example_body (example_rows 1 10) 0 10 25), (example_guids 1 10).
    split; [reflexivity | exact page_1_reports].
  - exists (example_body (example_rows 11 10) 10 10 25), (example_guids 11 10).
    split; [reflexivity | exact page_2_reports].
  - exists (example_body (example_rows 21 5) 20 10 25), (example_guids 21 5).
    split; [reflexivity | exact page_3_reports].
Qed.

Lemma gather_ends_on_a_paging_server_witness :
  exists ids s,
    gather_stage no_json_loads server_25 "" "http://nada.example/"
      (page_count 10 25 + 0) [] [] = (Returns (Some ids), s) /\
    requested s = map example_url (pages_from 1 (page_count 10 25)) /\
    gather_errors s = [] /\
    length ids = length (objects s) - length (@nil HarvestObject).
Proof.
  apply (gather_ends_on_a_paging_server no_json_loads server_25 ""
           "http://nada.example/" example_config example_url 10 25
           example_config_loaded example_url_built).
  - reflexivity.
  - exact server_25_keeps_its_word.
Defined.
